(** * LC oscillator model: the state container and its three integrators

    A shallow embedding of [model.py], [solver.py] and the non-plotting part
    of [simulation.py].

    Numbers are binary64 floats, the arithmetic of Python's [float] and of
    numpy's [float64]: Rocq's primitive floats with their IEEE operations.
    All parameters are floats, as the source annotates them.
    Two kinds of division occur in the source and are kept apart here:
    - numpy scalar division ([np.float64 / x]): IEEE division, total, a zero
      divisor gives an infinity or a NaN (numpy only emits a warning);
    - Python float division ([float / float]): raises [ZeroDivisionError]
      on a zero divisor.
    The model object is mutated in place by the solvers, also when a step
    raises; the solvers are therefore written in a state-and-exception monad
    over the model. The two readings of the clock in [solve] are arguments.
    What the source leaves to the platform, the libm behind [x ** 2] and the
    memory available to numpy, is a parameter of the development. *)

From Stdlib Require Import ZArith List Bool Lia.
From Stdlib Require Import Floats Uint63.
Import ListNotations.

Local Open Scope float_scope.

(** ** Exceptions and the state-and-exception monad *)

Inductive exn : Set :=
| IndexError
| ZeroDivisionError
| OverflowError
| ValueError
| MemoryError.

Inductive outcome (A : Type) : Type :=
| Return (a : A)
| Raise (e : exn).

Arguments Return {A} a.
Arguments Raise {A} e.

Definition obind {A B : Type} (c : outcome A) (k : A -> outcome B) : outcome B :=
  match c with
  | Return a => k a
  | Raise e => Raise e
  end.

Notation "x <-- c ;; k" := (obind c (fun x => k))
  (at level 61, c at next level, right associativity).

(** ** Python float operations that can raise *)

(** [x / y] on Python floats. *)
Definition py_truediv (x y : float) : outcome float :=
  if y =? 0 then Raise ZeroDivisionError else Return (x / y).

(** ** The platform *)

(** Two things the source uses are not fixed by it:
    - [float_pow2 x], the outcome of [x ** 2] on a Python float: CPython hands
      the operation to the C library's [pow], whose rounding differs between
      libraries (it need not be the rounded product [x * x]), and turns its
      range errors into exceptions;
    - [array_capacity], the largest number of doubles numpy can allocate for
      one array in the memory at hand. *)
Record Platform : Type := mkPlatform {
  float_pow2 : float -> outcome float;
  array_capacity : Z
}.

(** A platform for the sample runs below: a [pow] that is correctly rounded
    and room for [2^20] doubles. The sample step sizes, [0.5] and [1], have
    exact squares, which every library returns. *)
Definition sample_platform : Platform :=
  mkPlatform
    (fun x => if is_finite x && is_infinity (x * x) then Raise OverflowError
              else Return (x * x))
    (2 ^ 20)%Z.

(** ** model.py *)

Definition row : Set := (float * float)%type.

Record LCOscillatorModel : Set := mkModel {
  inductance : float;
  capacitance : float;
  initial_current : float;
  initial_voltage : float;
  initial_state : row;
  state : list row;
  (** [False] until a solver stores the elapsed time. *)
  solving_time : option float
}.

Definition LCOscillatorModel__init__
    (inductance capacitance initial_current initial_voltage : float)
    : outcome LCOscillatorModel :=
  let initial_state := (initial_current, initial_voltage) in
  Return (mkModel inductance capacitance initial_current initial_voltage
                  initial_state [initial_state] None).

Definition set_state (self : LCOscillatorModel) (st : list row) : LCOscillatorModel :=
  mkModel (inductance self) (capacitance self) (initial_current self)
          (initial_voltage self) (initial_state self) st (solving_time self).

Definition set_solving_time (self : LCOscillatorModel) (t : float) : LCOscillatorModel :=
  mkModel (inductance self) (capacitance self) (initial_current self)
          (initial_voltage self) (initial_state self) (state self) (Some t).

Definition add_new_state (self : LCOscillatorModel) (new_state_y : row)
    : LCOscillatorModel :=
  let new_state := (fst new_state_y, - inductance self * snd new_state_y) in
  set_state self (state self ++ [new_state]).

(** [a[-1]]: the last row, [IndexError] on an array without rows. *)
Fixpoint last_row (a : list row) : outcome row :=
  match a with
  | [] => Raise IndexError
  | [r] => Return r
  | _ :: a' => last_row a'
  end.

Definition get_last_state (self : LCOscillatorModel) : outcome row :=
  last_row (state self).

Definition get_last_state_y (self : LCOscillatorModel) : outcome row :=
  r <-- last_row (state self) ;;
  Return (fst r, - snd r / inductance self).

Definition last_equation_y (self : LCOscillatorModel) : outcome float :=
  last_state <-- get_last_state_y self ;;
  Return (- fst last_state / (inductance self * capacitance self)).

Section OnPlatform.
Variable platform : Platform.

(** ** numpy's [arange] *)

(** The exact ceiling of a finite float, read off its mantissa and exponent;
    [None] on infinities and NaN. *)
Definition SFceil (x : spec_float) : option Z :=
  match x with
  | S754_zero _ => Some 0%Z
  | S754_finite s m e =>
      let v := cond_Zopp s (Zpos m) in
      Some (match e with
            | Zneg p => (- ((- v) / Z.pow_pos 2 p))%Z
            | _ => (v * 2 ^ e)%Z
            end)
  | _ => None
  end.

Definition float_ceil (x : float) : option Z := SFceil (Prim2SF x).

(** The exact floor, likewise. *)
Definition SFfloor (x : spec_float) : option Z :=
  match x with
  | S754_zero _ => Some 0%Z
  | S754_finite s m e =>
      let v := cond_Zopp s (Zpos m) in
      Some (match e with
            | Zneg p => (v / Z.pow_pos 2 p)%Z
            | _ => (v * 2 ^ e)%Z
            end)
  | _ => None
  end.

Definition float_floor (x : float) : option Z := SFfloor (Prim2SF x).

Definition max_intp : Z := (2 ^ 63 - 1)%Z.
Definition min_intp : Z := (- 2 ^ 63)%Z.

(** An array index as a double. *)
Definition float_of_index (i : nat) : float := of_uint63 (of_Z (Z.of_nat i)).

(** The largest number of doubles in an array whose size in bytes fits the
    index type. *)
Definition max_elements : Z := (2 ^ 60 - 1)%Z.

(** Modelled from numpy (an external library): the number of elements of
    [arange(start, stop, step)] is the ceiling of the float quotient
    [(stop - start) / step], with one element when a nonzero span gives a
    quotient that underflows to [+0]. A NaN, an infinite or an out-of-range
    quotient raises [ValueError]; the range is checked on doubles, so that a
    ceiling of exactly [2^63] passes and wraps to a negative length. *)
Definition arange_length (start stop step : float) : outcome Z :=
  let next := stop - start in
  val <-- py_truediv next step ;;
  if (val =? 0) && negb (next =? 0) then
    Return (if get_sign val then 0%Z else 1%Z)
  else
    match float_ceil val with
    | None => Raise ValueError
    | Some n =>
        if ((min_intp <=? n) && (n <=? max_intp + 1))%Z
        then Return (if (n =? max_intp + 1)%Z then min_intp else n)
        else Raise ValueError
    end.

(** Element [i] of the array: the first two are stored as [start] and
    [start + step], the others filled as [start + i * delta]. *)
Definition arange_item (start step : float) (i : nat) : float :=
  match i with
  | O => start
  | S O => start + step
  | _ => start + float_of_index i * ((start + step) - start)
  end.

(** The array: empty for a length that is not positive; [ValueError] for a
    length whose size in bytes does not fit the index type, [MemoryError] for
    one the platform cannot allocate. *)
Definition arange (start stop step : float) : outcome (list float) :=
  len <-- arange_length start stop step ;;
  if (len <=? 0)%Z then Return []
  else if (max_elements <? len)%Z then Raise ValueError
  else if (array_capacity platform <? len)%Z then Raise MemoryError
  else Return (map (arange_item start step) (seq 0 (Z.to_nat len))).

(** ** solver.py *)

(** The solver mutates the model it holds a reference to; the model is the
    state of the monad, and stays as mutated when a step raises. *)
Definition M (A : Type) : Type := LCOscillatorModel -> outcome A * LCOscillatorModel.

Definition ret {A : Type} (a : A) : M A := fun m => (Return a, m).

Definition bind {A B : Type} (c : M A) (k : A -> M B) : M B :=
  fun m => match c m with
           | (Return a, m') => k a m'
           | (Raise e, m') => (Raise e, m')
           end.

(** A method of the model that only reads it. *)
Definition call {A : Type} (f : LCOscillatorModel -> outcome A) : M A :=
  fun m => (f m, m).

(** A method of the model that updates it and returns [None]. *)
Definition update (f : LCOscillatorModel -> LCOscillatorModel) : M unit :=
  fun m => (Return tt, f m).

Notation "x <- c ; k" := (bind c (fun x => k))
  (at level 61, c at next level, right associativity).

(** [for x in xs: body] *)
Fixpoint for_each {A : Type} (xs : list A) (body : A -> M unit) : M unit :=
  match xs with
  | [] => ret tt
  | x :: xs' => _ <- body x ; for_each xs' body
  end.

Inductive SolverClass : Set :=
| SimpleEulerSolver
| BackwardEulerSolver
| SimpleRungeKutta.

(** The fields of [SolverInterface]; its [model] field is the monad's state. *)
Record Solver : Set := mkSolver {
  solver_class : SolverClass;
  step_size : float;
  simulation_time : float;
  time_steps : list float
}.

Definition SolverInterface__init__ (cls : SolverClass)
    (step_size simulation_time : float) : outcome Solver :=
  time_steps <-- arange 0 simulation_time step_size ;;
  Return (mkSolver cls step_size simulation_time time_steps).

(** *** SimpleEulerSolver *)

Definition euler_body (self : Solver) : M unit :=
  last_state <- call get_last_state_y ;
  f <- call last_equation_y ;
  let new_state :=
    (fst last_state + snd last_state * step_size self,
     snd last_state + f * step_size self) in
  update (fun m => add_new_state m new_state).

(** *** BackwardEulerSolver *)

Definition y_2_new_func (self : Solver) (model : LCOscillatorModel)
    (y_1_old y_2_old : float) : outcome float :=
  sq <-- float_pow2 platform (step_size self) ;;
  q <-- py_truediv sq (inductance model * capacitance model) ;;
  a <-- py_truediv 1 (1 + q) ;;
  b <-- py_truediv (step_size self) (inductance model * capacitance model) ;;
  Return (a * y_2_old - b * y_1_old).

Definition backward_body (self : Solver) : M unit :=
  last_state <- call get_last_state_y ;
  y_2_new <- call (fun m => y_2_new_func self m (fst last_state) (snd last_state)) ;
  let y_1_new := fst last_state + y_2_new * step_size self in
  let new_state := (y_1_new, y_2_new) in
  update (fun m => add_new_state m new_state).

(** *** SimpleRungeKutta *)

Definition y_new (self : Solver) (y_old y_func : float) : float :=
  let k_1 := y_func in
  let k_2 := y_func + step_size self * k_1 / 2 in
  let k_3 := y_func + step_size self * k_2 / 2 in
  let k_4 := y_func + step_size self * k_3 in
  let y_delta := step_size self * (k_1 + 2 * k_2 + 2 * k_3 + k_4) / 6 in
  y_old + y_delta.

Definition runge_kutta_body (self : Solver) : M unit :=
  last_state <- call get_last_state_y ;
  lc <- call (fun m => Return (inductance m * capacitance m)) ;
  let new_state :=
    (y_new self (fst last_state) (snd last_state),
     y_new self (snd last_state) (- fst last_state / lc)) in
  update (fun m => add_new_state m new_state).

(** *** solve *)

(** Each class's [solve], with the two readings of the clock it takes: the
    loop over the time grid, then the elapsed time stored in the model. *)
Definition SimpleEulerSolver_solve (self : Solver) (start_time end_time : float)
    : M unit :=
  _ <- for_each (time_steps self) (fun _ => euler_body self) ;
  update (fun m => set_solving_time m (end_time - start_time)).

Definition BackwardEulerSolver_solve (self : Solver) (start_time end_time : float)
    : M unit :=
  _ <- for_each (time_steps self) (fun _ => backward_body self) ;
  update (fun m => set_solving_time m (end_time - start_time)).

Definition SimpleRungeKutta_solve (self : Solver) (start_time end_time : float)
    : M unit :=
  _ <- for_each (time_steps self) (fun _ => runge_kutta_body self) ;
  update (fun m => set_solving_time m (end_time - start_time)).

(** [self.solve()], dispatched on the solver's class. *)
Definition solve (self : Solver) : float -> float -> M unit :=
  match solver_class self with
  | SimpleEulerSolver => SimpleEulerSolver_solve self
  | BackwardEulerSolver => BackwardEulerSolver_solve self
  | SimpleRungeKutta => SimpleRungeKutta_solve self
  end.

(** ** simulation.py *)

(** [Simulation.__init__] builds the model, then the solver bound to it;
    [start_simulation] calls the solver's [solve]. Plotting is left out. *)
Definition Simulation__init__
    (inductance capacitance initial_current initial_voltage : float)
    (step_size simulation_time : float) (solver : SolverClass)
    : outcome (LCOscillatorModel * Solver) :=
  model <-- LCOscillatorModel__init__ inductance capacitance
                                      initial_current initial_voltage ;;
  solver <-- SolverInterface__init__ solver step_size simulation_time ;;
  Return (model, solver).

Definition start_simulation (sim : LCOscillatorModel * Solver)
    (start_time end_time : float) : outcome unit * LCOscillatorModel :=
  solve (snd sim) start_time end_time (fst sim).

(** ** The history as a trajectory of stored rows *)

(** The two coordinate views of a row of the history. *)
Definition natural_of (L : float) (p : row) : row := (fst p, - snd p / L).
Definition stored_of (L : float) (y : row) : row := (fst y, - L * snd y).

(** The rows appended by [n] steps of a row-to-row rule [F] started at [p]. *)
Fixpoint trajectory (F : row -> row) (n : nat) (p : row) : list row :=
  match n with
  | O => []
  | S n' => F p :: trajectory F n' (F p)
  end.

(** One step of each strategy on natural coordinates, written after the
    specification's formulas (not after the code): the pair
    [(y0_new, y1_new)] from [(y0_old, y1_old)]. The solvers above are
    compared with these. The backward step takes the square of the step,
    [sq], as [dt ** 2] returned it. *)
Definition euler_step (dt L C : float) (y : row) : row :=
  let y0 := fst y in
  let y1 := snd y in
  let f := - y0 / (L * C) in
  (y0 + y1 * dt, y1 + f * dt).

Definition backward_step (sq dt L C : float) (y : row) : row :=
  let y0_old := fst y in
  let y1_old := snd y in
  let a := 1 / (1 + sq / (L * C)) in
  let b := dt / (L * C) in
  let y1_new := a * y1_old - b * y0_old in
  let y0_new := y0_old + y1_new * dt in
  (y0_new, y1_new).

Definition rk_stage (dt y_old frozen : float) : float :=
  let k1 := frozen in
  let k2 := frozen + dt * k1 / 2 in
  let k3 := frozen + dt * k2 / 2 in
  let k4 := frozen + dt * k3 in
  y_old + dt * (k1 + 2 * k2 + 2 * k3 + k4) / 6.

Definition runge_kutta_step (dt L C : float) (y : row) : row :=
  let y0_old := fst y in
  let y1_old := snd y in
  let f := - y0_old / (L * C) in
  (rk_stage dt y0_old y1_old, rk_stage dt y1_old f).

(** The square of the step where [dt ** 2] returns one; where it raises no
    backward step is taken. *)
Definition step_square (dt : float) : float :=
  match float_pow2 platform dt with
  | Return sq => sq
  | Raise _ => nan
  end.

Definition class_step (cls : SolverClass) (dt : float)
    : float -> float -> row -> row :=
  match cls with
  | SimpleEulerSolver => euler_step dt
  | BackwardEulerSolver => backward_step (step_square dt) dt
  | SimpleRungeKutta => runge_kutta_step dt
  end.

(** A natural-coordinate step seen on the stored rows of the history:
    stored row to natural, the step, natural back to stored. *)
Definition stored_rule (step : row -> row) (L : float) (p : row) : row :=
  stored_of L (step (natural_of L p)).

(** The backward integrator's coefficients [a] and [b] are computed without
    an exception: [dt ** 2] returns a square [sq], [L*C] is not zero and
    neither is [1 + sq/(L*C)]. *)
Definition backward_coeffs_ok (dt L C : float) : bool :=
  match float_pow2 platform dt with
  | Return sq => negb (L * C =? 0) && negb (1 + sq / (L * C) =? 0)
  | Raise _ => false
  end.

(** A pair of zeros, as floats compare: [-0.0 == 0]. *)
Definition zero_row (p : row) : bool := (fst p =? 0) && (snd p =? 0).

(** The model after a run that went through [n] steps of a rule. *)
Definition after_run (m : LCOscillatorModel) (F : row -> row) (n : nat) (p : row)
    (elapsed : float) : LCOscillatorModel :=
  set_solving_time (set_state m (state m ++ trajectory F n p)) elapsed.

(** The backward integrator's coefficients are finite numbers (where
    [dt ** 2] raises there are none). *)
Definition backward_coeffs_finite (dt L C : float) : bool :=
  match float_pow2 platform dt with
  | Return sq => is_finite (1 / (1 + sq / (L * C))) && is_finite (dt / (L * C))
  | Raise _ => true
  end.

(** The class's first step raises: only the backward integrator can, when
    its coefficients cannot be computed. *)
Definition coeffs_raise (cls : SolverClass) (dt L C : float) : bool :=
  match cls with
  | BackwardEulerSolver => negb (backward_coeffs_ok dt L C)
  | _ => false
  end.

(** ** Classes of binary64 numbers *)

(** Classes of a float, read on its specification. *)
Definition SFis_zero (x : spec_float) : bool :=
  match x with S754_zero _ => true | _ => false end.

Definition SFis_nan (x : spec_float) : bool :=
  match x with S754_nan => true | _ => false end.

Definition SFis_finite (x : spec_float) : bool :=
  match x with S754_zero _ | S754_finite _ _ _ => true | _ => false end.

(** Strictly positive: a positive finite number or [+inf]. *)
Definition SFis_pos (x : spec_float) : bool :=
  match x with S754_finite false _ _ | S754_infinity false => true | _ => false end.

(** Not negative and not [-0]; NaN allowed. *)
Definition SFsign_clear (x : spec_float) : bool :=
  match x with
  | S754_zero s | S754_infinity s | S754_finite s _ _ => negb s
  | S754_nan => true
  end.

(** A number with sign bit [s]; not a NaN. *)
Definition SFhas_sign (s : bool) (x : spec_float) : bool :=
  match x with
  | S754_zero s' | S754_infinity s' | S754_finite s' _ _ => Bool.eqb s s'
  | S754_nan => false
  end.

(** ** Sample inputs *)

(** [LCOscillatorModel(1, 1, 0, 1)] and a solver for [step_size=0.5],
    [simulation_time=1]. *)
Definition sample_model : LCOscillatorModel :=
  mkModel 1 1 0 1 (0, 1) [(0, 1)] None.

Definition sample_solver (cls : SolverClass) : Solver :=
  mkSolver cls 0.5 1 [0; 0.5].

(** ** Further notions *)

(** The arrays [show_plots] hands to the plotting library beside
    [time_steps]: [state[1:, 0]] and [state[1:, 1]]. *)
Definition current_series (model : LCOscillatorModel) : list float :=
  map fst (tl (state model)).

Definition voltage_series (model : LCOscillatorModel) : list float :=
  map snd (tl (state model)).

(** The same solver over another grid. *)
Definition with_time_steps (self : Solver) (ts : list float) : Solver :=
  mkSolver (solver_class self) (step_size self) (simulation_time self) ts.

(** [m'] is [m] with at most [n] rows appended to its history and every
    other field as it was. *)
Definition extends_by (n : nat) (m m' : LCOscillatorModel) : Prop :=
  inductance m' = inductance m
  /\ capacitance m' = capacitance m
  /\ initial_current m' = initial_current m
  /\ initial_voltage m' = initial_voltage m
  /\ initial_state m' = initial_state m
  /\ solving_time m' = solving_time m
  /\ exists rows, state m' = state m ++ rows /\ (length rows <= n)%nat.

(** The exception of a backward Euler step whose coefficients cannot be
    computed: the one [dt ** 2] raises, or that of a division by zero. *)
Definition backward_exception (dt : float) : exn :=
  match float_pow2 platform dt with
  | Raise e => e
  | Return _ => ZeroDivisionError
  end.

(** * Properties *)

(** ** Lists and the last row *)

Lemma last_row_app (h : list row) (p : row) : last_row (h ++ [p]) = Return p.
Proof.
  induction h as [|x h IH]; [reflexivity|].
  simpl. destruct (h ++ [p]) eqn:E; [destruct h; discriminate|exact IH].
Qed.

Lemma last_row_nonempty (h : list row) :
  h <> [] -> exists p, last_row h = Return p.
Proof.
  induction h as [|x h IH]; [congruence|intros _].
  destruct h as [|y h]; [exists x; reflexivity|].
  destruct IH as [p Hp]; [discriminate|]. exists p. exact Hp.
Qed.

Lemma last_row_nth (h : list row) (p : row) :
  last_row h = Return p -> nth_error h (length h - 1) = Some p.
Proof.
  induction h as [|x h IH]; [discriminate|].
  destruct h as [|y h]; simpl; [intros [= ->]; reflexivity|].
  intros H. specialize (IH H). simpl in IH.
  rewrite Nat.sub_0_r in IH. exact IH.
Qed.

Lemma set_state_same (m : LCOscillatorModel) : set_state m (state m) = m.
Proof. destruct m; reflexivity. Qed.

Lemma trajectory_length (F : row -> row) (n : nat) (p : row) :
  length (trajectory F n p) = n.
Proof. revert p; induction n; simpl; intros; [reflexivity|now rewrite IHn]. Qed.

(** Consecutive rows of a history grown by [trajectory] are related by the
    rule. *)
Lemma trajectory_step (F : row -> row) (n : nat) :
  forall (h : list row) (p : row),
    last_row h = Return p ->
    forall k q, (k < n)%nat ->
      nth_error (h ++ trajectory F n p) (length h + k - 1) = Some q ->
      nth_error (h ++ trajectory F n p) (length h + k) = Some (F q).
Proof.
  induction n as [|n IH]; intros h p Hp k q Hk Hq; [lia|].
  assert (Hlen : (1 <= length h)%nat).
  { destruct h; [discriminate|simpl; lia]. }
  simpl in *.
  replace (h ++ F p :: trajectory F n (F p))
    with ((h ++ [F p]) ++ trajectory F n (F p)) in *
    by (rewrite <- app_assoc; reflexivity).
  destruct k as [|k].
  - rewrite Nat.add_0_r in *.
    rewrite nth_error_app1 in Hq by (rewrite length_app; simpl; lia).
    rewrite nth_error_app1 in Hq by lia.
    rewrite (last_row_nth _ _ Hp) in Hq. injection Hq as <-.
    rewrite nth_error_app1 by (rewrite length_app; simpl; lia).
    rewrite nth_error_app2 by lia.
    rewrite Nat.sub_diag. reflexivity.
  - specialize (IH (h ++ [F p]) (F p) (last_row_app _ _) k q).
    rewrite length_app in IH. simpl in IH.
    replace (length h + S k - 1)%nat with (length h + 1 + k - 1)%nat in Hq by lia.
    replace (length h + S k)%nat with (length h + 1 + k)%nat by lia.
    apply IH; [lia|exact Hq].
Qed.

(** ** The loop *)

Section Loop.
Variables (L C : float) (F : row -> row) (body : M unit).

(** The body appends [F] of the last row on every model with these
    parameters. *)
Hypothesis body_appends :
  forall m p, inductance m = L /\ capacitance m = C ->
    last_row (state m) = Return p ->
    body m = (Return tt, set_state m (state m ++ [F p])).

Lemma for_each_appends {A : Type} (xs : list A) :
  forall m p, inductance m = L /\ capacitance m = C ->
    last_row (state m) = Return p ->
    for_each xs (fun _ => body) m
    = (Return tt, set_state m (state m ++ trajectory F (length xs) p)).
Proof.
  induction xs as [|x xs IH]; intros m p Hm Hp; simpl.
  - rewrite app_nil_r, set_state_same. reflexivity.
  - unfold bind. rewrite (body_appends m p Hm Hp).
    rewrite (IH _ (F p)).
    + simpl. rewrite <- app_assoc. reflexivity.
    + exact Hm.
    + simpl. apply last_row_app.
Qed.
End Loop.

(** A body that raises without touching the model stops the loop at once. *)
Lemma for_each_raises {A : Type} (body : M unit) (e : exn) (x : A) (xs : list A)
    (m : LCOscillatorModel) :
  body m = (Raise e, m) -> for_each (x :: xs) (fun _ => body) m = (Raise e, m).
Proof. intros H. simpl. unfold bind. rewrite H. reflexivity. Qed.

(** ** The model's readers on a known last row *)

Lemma get_last_state_y_last (m : LCOscillatorModel) (p : row) :
  last_row (state m) = Return p ->
  get_last_state_y m = Return (natural_of (inductance m) p).
Proof. intros H. unfold get_last_state_y. rewrite H. reflexivity. Qed.

Lemma last_equation_y_last (m : LCOscillatorModel) (p : row) :
  last_row (state m) = Return p ->
  last_equation_y m = Return (- fst p / (inductance m * capacitance m)).
Proof.
  intros H. unfold last_equation_y.
  rewrite (get_last_state_y_last m p H). reflexivity.
Qed.

(** ** The loop bodies *)

Lemma euler_body_step (self : Solver) (m : LCOscillatorModel) (y0 y1 f : float) :
  get_last_state_y m = Return (y0, y1) ->
  last_equation_y m = Return f ->
  euler_body self m
  = (Return tt, add_new_state m (y0 + y1 * step_size self, y1 + f * step_size self)).
Proof.
  intros Hy Hf. unfold euler_body, bind, call, update.
  rewrite Hy, Hf. reflexivity.
Qed.

Lemma euler_body_appends (self : Solver) (m : LCOscillatorModel) (p : row) :
  last_row (state m) = Return p ->
  euler_body self m
  = (Return tt,
     set_state m (state m ++ [stored_rule (euler_step (step_size self) (inductance m)
                                                      (capacitance m))
                                          (inductance m) p])).
Proof.
  intros H.
  rewrite (euler_body_step self m (fst p) (- snd p / inductance m)
             (- fst p / (inductance m * capacitance m))).
  - reflexivity.
  - apply (get_last_state_y_last m p H).
  - apply (last_equation_y_last m p H).
Qed.

Lemma runge_kutta_body_step (self : Solver) (m : LCOscillatorModel) (y0 y1 : float) :
  get_last_state_y m = Return (y0, y1) ->
  runge_kutta_body self m
  = (Return tt,
     add_new_state m
       (rk_stage (step_size self) y0 y1,
        rk_stage (step_size self) y1 (- y0 / (inductance m * capacitance m)))).
Proof.
  intros Hy. unfold runge_kutta_body, bind, call, update.
  rewrite Hy. reflexivity.
Qed.

Lemma runge_kutta_body_appends (self : Solver) (m : LCOscillatorModel) (p : row) :
  last_row (state m) = Return p ->
  runge_kutta_body self m
  = (Return tt,
     set_state m (state m ++ [stored_rule (runge_kutta_step (step_size self)
                                             (inductance m) (capacitance m))
                                          (inductance m) p])).
Proof.
  intros H.
  rewrite (runge_kutta_body_step self m (fst p) (- snd p / inductance m)).
  - reflexivity.
  - apply (get_last_state_y_last m p H).
Qed.

(** The closed-form coefficients of the backward integrator. *)
Lemma backward_coeffs_ok_square (dt L C : float) :
  backward_coeffs_ok dt L C = true ->
  exists sq,
    float_pow2 platform dt = Return sq
    /\ step_square dt = sq
    /\ (L * C =? 0) = false
    /\ (1 + sq / (L * C) =? 0) = false.
Proof.
  unfold backward_coeffs_ok, step_square.
  destruct (float_pow2 platform dt) as [sq|e]; [|discriminate].
  intros H. apply andb_prop in H as [H1 H2]. apply negb_true_iff in H1, H2.
  exists sq. repeat split; assumption.
Qed.

Lemma y_2_new_func_ok (self : Solver) (m : LCOscillatorModel) (y_1_old y_2_old : float) :
  backward_coeffs_ok (step_size self) (inductance m) (capacitance m) = true ->
  y_2_new_func self m y_1_old y_2_old
  = Return (1 / (1 + step_square (step_size self)
                       / (inductance m * capacitance m)) * y_2_old
            - step_size self / (inductance m * capacitance m) * y_1_old).
Proof.
  intros H. destruct (backward_coeffs_ok_square _ _ _ H) as (sq & Hsq & -> & H2 & H3).
  unfold y_2_new_func, py_truediv.
  rewrite Hsq. cbn [obind]. rewrite H2. cbn [obind]. rewrite H3. reflexivity.
Qed.

Lemma y_2_new_func_exception
    (self : Solver) (m : LCOscillatorModel) (y_1_old y_2_old : float) :
  backward_coeffs_ok (step_size self) (inductance m) (capacitance m) = false ->
  y_2_new_func self m y_1_old y_2_old = Raise (backward_exception (step_size self)).
Proof.
  unfold backward_coeffs_ok, backward_exception, y_2_new_func, py_truediv.
  intros H.
  destruct (float_pow2 platform (step_size self)) as [sq|e]; [|reflexivity].
  cbn [obind].
  destruct (inductance m * capacitance m =? 0) eqn:H2; [reflexivity|].
  cbn [obind negb andb] in *.
  destruct (1 + sq / (inductance m * capacitance m) =? 0) eqn:H3;
    [reflexivity|discriminate].
Qed.

Lemma y_2_new_func_raises (self : Solver) (m : LCOscillatorModel) (y_1_old y_2_old : float) :
  backward_coeffs_ok (step_size self) (inductance m) (capacitance m) = false ->
  exists e, y_2_new_func self m y_1_old y_2_old = Raise e.
Proof.
  intros H. eexists. apply (y_2_new_func_exception self m _ _ H).
Qed.

Lemma backward_body_step (self : Solver) (m : LCOscillatorModel) (y0_old y1_old : float) :
  get_last_state_y m = Return (y0_old, y1_old) ->
  backward_coeffs_ok (step_size self) (inductance m) (capacitance m) = true ->
  backward_body self m
  = (Return tt,
     add_new_state m (backward_step (step_square (step_size self)) (step_size self)
                                    (inductance m) (capacitance m)
                                    (y0_old, y1_old))).
Proof.
  intros Hy Hok. unfold backward_body, bind, call, update.
  rewrite Hy. simpl fst; simpl snd.
  rewrite (y_2_new_func_ok self m y0_old y1_old Hok). reflexivity.
Qed.

Lemma backward_body_appends (self : Solver) (m : LCOscillatorModel) (p : row) :
  backward_coeffs_ok (step_size self) (inductance m) (capacitance m) = true ->
  last_row (state m) = Return p ->
  backward_body self m
  = (Return tt,
     set_state m (state m ++ [stored_rule (backward_step (step_square (step_size self))
                                             (step_size self)
                                             (inductance m) (capacitance m))
                                          (inductance m) p])).
Proof.
  intros Hok H.
  rewrite (backward_body_step self m (fst p) (- snd p / inductance m)
             (get_last_state_y_last m p H) Hok).
  reflexivity.
Qed.

Lemma backward_body_raises (self : Solver) (m : LCOscillatorModel) :
  state m <> [] ->
  backward_coeffs_ok (step_size self) (inductance m) (capacitance m) = false ->
  exists e, backward_body self m = (Raise e, m).
Proof.
  intros Hne Hbad.
  destruct (last_row_nonempty _ Hne) as [p Hp].
  destruct (y_2_new_func_raises self m (fst (natural_of (inductance m) p))
              (snd (natural_of (inductance m) p)) Hbad) as [e He].
  exists e. unfold backward_body, bind, call.
  rewrite (get_last_state_y_last m p Hp), He. reflexivity.
Qed.

Lemma trajectory_prev (F : row -> row) (n : nat) (h : list row) (p : row) :
  last_row h = Return p ->
  forall k q,
    nth_error (h ++ trajectory F n p) (length h + k) = Some q ->
    exists p', nth_error (h ++ trajectory F n p) (length h + k - 1) = Some p'
               /\ q = F p'.
Proof.
  intros Hp k q Hq.
  assert (Hk : (k < n)%nat).
  { assert (Hlt : (length h + k < length (h ++ trajectory F n p))%nat)
      by (apply nth_error_Some; congruence).
    rewrite length_app, trajectory_length in Hlt. lia. }
  destruct (nth_error (h ++ trajectory F n p) (length h + k - 1)) as [p'|] eqn:E.
  - exists p'. split; [reflexivity|].
    rewrite (trajectory_step F n h p Hp k p' Hk E) in Hq. congruence.
  - apply nth_error_None in E. rewrite length_app, trajectory_length in E.
    destruct h; [discriminate|simpl in E; lia].
Qed.

(** ** What [solve] leaves in the model *)

Lemma euler_solve_run (self : Solver) (t0 t1 : float) (m : LCOscillatorModel) (p : row) :
  last_row (state m) = Return p ->
  SimpleEulerSolver_solve self t0 t1 m
  = (Return tt,
     after_run m (stored_rule (euler_step (step_size self) (inductance m)
                                          (capacitance m)) (inductance m))
               (length (time_steps self)) p (t1 - t0)).
Proof.
  intros Hp. unfold SimpleEulerSolver_solve, bind.
  rewrite (for_each_appends (inductance m) (capacitance m)
             (stored_rule (euler_step (step_size self) (inductance m) (capacitance m))
                          (inductance m))
             (euler_body self)) with (p := p); auto.
  intros m0 p0 [HL HC] H0. rewrite <- HL, <- HC. apply euler_body_appends, H0.
Qed.

Lemma runge_kutta_solve_run (self : Solver) (t0 t1 : float) (m : LCOscillatorModel)
    (p : row) :
  last_row (state m) = Return p ->
  SimpleRungeKutta_solve self t0 t1 m
  = (Return tt,
     after_run m (stored_rule (runge_kutta_step (step_size self) (inductance m)
                                                (capacitance m)) (inductance m))
               (length (time_steps self)) p (t1 - t0)).
Proof.
  intros Hp. unfold SimpleRungeKutta_solve, bind.
  rewrite (for_each_appends (inductance m) (capacitance m)
             (stored_rule (runge_kutta_step (step_size self) (inductance m)
                                            (capacitance m)) (inductance m))
             (runge_kutta_body self)) with (p := p); auto.
  intros m0 p0 [HL HC] H0. rewrite <- HL, <- HC. apply runge_kutta_body_appends, H0.
Qed.

Lemma backward_solve_run (self : Solver) (t0 t1 : float) (m : LCOscillatorModel)
    (p : row) :
  backward_coeffs_ok (step_size self) (inductance m) (capacitance m) = true ->
  last_row (state m) = Return p ->
  BackwardEulerSolver_solve self t0 t1 m
  = (Return tt,
     after_run m (stored_rule (backward_step (step_square (step_size self))
                                             (step_size self) (inductance m)
                                             (capacitance m)) (inductance m))
               (length (time_steps self)) p (t1 - t0)).
Proof.
  intros Hok Hp. unfold BackwardEulerSolver_solve, bind.
  rewrite (for_each_appends (inductance m) (capacitance m)
             (stored_rule (backward_step (step_square (step_size self))
                                         (step_size self) (inductance m)
                                         (capacitance m)) (inductance m))
             (backward_body self)) with (p := p); auto.
  intros m0 p0 [HL HC] H0. rewrite <- HL, <- HC.
  apply backward_body_appends; [rewrite HL, HC; exact Hok|exact H0].
Qed.

(** With coefficients that cannot be computed, the backward integrator raises
    in its first step and leaves the model as it was. *)
Lemma backward_solve_raises (self : Solver) (t0 t1 : float) (m : LCOscillatorModel) :
  state m <> [] ->
  time_steps self <> [] ->
  backward_coeffs_ok (step_size self) (inductance m) (capacitance m) = false ->
  exists e, BackwardEulerSolver_solve self t0 t1 m = (Raise e, m).
Proof.
  intros Hne Hgrid Hbad.
  destruct (backward_body_raises self m Hne Hbad) as [e He].
  exists e. unfold BackwardEulerSolver_solve, bind.
  destruct (time_steps self) as [|t ts]; [congruence|].
  rewrite (for_each_raises (backward_body self) e t ts m He). reflexivity.
Qed.

(** Whatever the class and however the run ends, the history is the old one
    followed by a trajectory of the class's rule. *)
Lemma solve_state (self : Solver) (t0 t1 : float) (m : LCOscillatorModel) (p : row) :
  last_row (state m) = Return p ->
  exists j,
    state (snd (solve self t0 t1 m))
    = state m ++ trajectory
        (stored_rule (class_step (solver_class self) (step_size self)
                                 (inductance m) (capacitance m)) (inductance m))
        j p
    /\ (j = 0%nat
        \/ coeffs_raise (solver_class self) (step_size self)
                        (inductance m) (capacitance m) = false).
Proof.
  intros Hp. unfold solve, coeffs_raise.
  destruct (solver_class self) eqn:Hc; simpl class_step.
  - exists (length (time_steps self)). rewrite (euler_solve_run self t0 t1 m p Hp).
    split; [reflexivity|right; reflexivity].
  - destruct (backward_coeffs_ok (step_size self) (inductance m) (capacitance m))
      eqn:Hok.
    + exists (length (time_steps self)).
      rewrite (backward_solve_run self t0 t1 m p Hok Hp).
      split; [reflexivity|right; reflexivity].
    + exists 0%nat. simpl. rewrite app_nil_r. split; [|left; reflexivity].
      destruct (time_steps self) as [|t ts] eqn:Hg.
      * unfold BackwardEulerSolver_solve, bind. rewrite Hg. reflexivity.
      * destruct (backward_solve_raises self t0 t1 m) as [e He];
          [destruct (state m); discriminate|rewrite Hg; discriminate|exact Hok|].
        rewrite He. reflexivity.
  - exists (length (time_steps self)).
    rewrite (runge_kutta_solve_run self t0 t1 m p Hp).
    split; [reflexivity|right; reflexivity].
Qed.

(** ** The update rules of the three integrators *)

(** C4. Each step of the explicit Euler solver reads the latest natural state
    [(y0, y1)] and the derivative term [f] of the model and appends the
    natural state [(y0 + y1*dt, y1 + f*dt)], both components from the old
    values; on a model with a non-empty history [solve] returns, appends one
    row per grid point, and every appended row is that update of the row
    before it, with [y1 = -s1/L] and [f = -y0/(L*C)] read from the stored
    row [(s0, s1)]. *)
Theorem euler_solve_explicit (self : Solver) (t0 t1 : float) (m : LCOscillatorModel) :
  state m <> [] ->
  let dt := step_size self in
  let L := inductance m in
  let C := capacitance m in
  (forall m0 y0 y1 f,
      get_last_state_y m0 = Return (y0, y1) ->
      last_equation_y m0 = Return f ->
      euler_body self m0
      = (Return tt, add_new_state m0 (y0 + y1 * dt, y1 + f * dt)))
  /\ exists m',
      SimpleEulerSolver_solve self t0 t1 m = (Return tt, m')
      /\ length (state m') = (length (state m) + length (time_steps self))%nat
      /\ forall k p,
          (k < length (time_steps self))%nat ->
          nth_error (state m') (length (state m) + k - 1) = Some p ->
          let y0 := fst p in
          let y1 := - snd p / L in
          let f := - y0 / (L * C) in
          nth_error (state m') (length (state m) + k)
          = Some (y0 + y1 * dt, - L * (y1 + f * dt)).
Proof.
  intros Hne dt L C. split.
  - intros m0 y0 y1 f Hy Hf. apply euler_body_step; assumption.
  - destruct (last_row_nonempty _ Hne) as [p0 Hp0].
    eexists. split; [apply (euler_solve_run self t0 t1 m p0 Hp0)|].
    unfold after_run. simpl state. split.
    + rewrite length_app, trajectory_length. reflexivity.
    + intros k p Hk Hp.
      rewrite (trajectory_step _ _ _ _ Hp0 k p Hk Hp). reflexivity.
Qed.

Lemma euler_solve_explicit_witness :
  state sample_model <> []
  /\ exists m',
      SimpleEulerSolver_solve (sample_solver SimpleEulerSolver) 10 11 sample_model
      = (Return tt, m')
      /\ nth_error (state m') 1 = Some (0 + (- 1 / 1) * 0.5, - 1 * (- 1 / 1 + - 0 / (1 * 1) * 0.5)).
Proof.
  split; [discriminate|].
  destruct (euler_solve_explicit (sample_solver SimpleEulerSolver) 10 11 sample_model)
    as [_ [m' [Hrun [_ Hstep]]]]; [discriminate|].
  exists m'. split; [exact Hrun|].
  apply (Hstep 0%nat (0, 1)); [simpl; lia|].
  clear Hstep. vm_compute in Hrun. injection Hrun as <-. reflexivity.
Defined.

(** C2. A step of the backward Euler solver on the latest natural state
    [(y0_old, y1_old)] either raises while computing its coefficients, leaving
    the model untouched, or appends the natural state [(y0_new, y1_new)] with
    [y1_new = a*y1_old - b*y0_old], [a = 1/(1 + sq/(L*C))], [b = dt/(L*C)]
    and [y0_new = y0_old + y1_new*dt], the new [y1] feeding the update of
    [y0]; [sq] is the square of the step, the value [dt ** 2] returns. When
    the coefficients can be computed ([L*C] and [1 + sq/(L*C)] are not zero),
    [solve] on a model with a non-empty history returns, appends one row per
    grid point, and every appended row is that update of the row before it. *)
Theorem backward_solve_partially_implicit
    (self : Solver) (t0 t1 : float) (m : LCOscillatorModel) (sq : float) :
  state m <> [] ->
  let dt := step_size self in
  let L := inductance m in
  let C := capacitance m in
  float_pow2 platform dt = Return sq ->
  (L * C =? 0) = false ->
  (1 + sq / (L * C) =? 0) = false ->
  (forall m0 y0_old y1_old,
      get_last_state_y m0 = Return (y0_old, y1_old) ->
      let a := 1 / (1 + sq / (inductance m0 * capacitance m0)) in
      let b := dt / (inductance m0 * capacitance m0) in
      let y1_new := a * y1_old - b * y0_old in
      let y0_new := y0_old + y1_new * dt in
      backward_body self m0 = (Return tt, add_new_state m0 (y0_new, y1_new))
      \/ exists e, backward_body self m0 = (Raise e, m0))
  /\ exists m',
      BackwardEulerSolver_solve self t0 t1 m = (Return tt, m')
      /\ length (state m') = (length (state m) + length (time_steps self))%nat
      /\ forall k p,
          (k < length (time_steps self))%nat ->
          nth_error (state m') (length (state m) + k - 1) = Some p ->
          let y0_old := fst p in
          let y1_old := - snd p / L in
          let a := 1 / (1 + sq / (L * C)) in
          let b := dt / (L * C) in
          let y1_new := a * y1_old - b * y0_old in
          let y0_new := y0_old + y1_new * dt in
          nth_error (state m') (length (state m) + k) = Some (y0_new, - L * y1_new).
Proof.
  intros Hne dt L C Hsq HLC Hden.
  assert (Hsquare : step_square dt = sq) by (unfold step_square; rewrite Hsq; reflexivity).
  assert (Hok : backward_coeffs_ok dt L C = true)
    by (unfold backward_coeffs_ok; rewrite Hsq, HLC, Hden; reflexivity).
  split.
  - intros m0 y0_old y1_old Hy a b y1_new y0_new.
    destruct (backward_coeffs_ok dt (inductance m0) (capacitance m0)) eqn:Hok0.
    + left. rewrite (backward_body_step self m0 y0_old y1_old Hy Hok0).
      fold dt. rewrite Hsquare. reflexivity.
    + right.
      destruct (y_2_new_func_raises self m0 y0_old y1_old Hok0) as [e He].
      exists e. unfold backward_body, bind, call. rewrite Hy. simpl fst; simpl snd.
      rewrite He. reflexivity.
  - destruct (last_row_nonempty _ Hne) as [p0 Hp0].
    eexists. split; [apply (backward_solve_run self t0 t1 m p0 Hok Hp0)|].
    unfold after_run. simpl state. split.
    + rewrite length_app, trajectory_length. reflexivity.
    + intros k p Hk Hp.
      rewrite (trajectory_step _ _ _ _ Hp0 k p Hk Hp).
      fold dt. rewrite Hsquare. reflexivity.
Qed.

(** C3. Each step of the Runge-Kutta solver updates each coordinate by the
    four-stage rule with the other coordinate's old value frozen: with
    [k1 = v], [k2 = v + dt*k1/2], [k3 = v + dt*k2/2], [k4 = v + dt*k3] the new
    value is [y_old + dt*(k1 + 2*k2 + 2*k3 + k4)/6], where [v = y1_old] for
    [y0] and [v = -y0_old/(L*C)] for [y1]; on a model with a non-empty history
    [solve] returns, appends one row per grid point, and every appended row
    is that update of the row before it. *)
Theorem runge_kutta_solve_stages (self : Solver) (t0 t1 : float) (m : LCOscillatorModel) :
  state m <> [] ->
  let dt := step_size self in
  let L := inductance m in
  let C := capacitance m in
  let stage := fun y_old v : float =>
    let k1 := v in
    let k2 := v + dt * k1 / 2 in
    let k3 := v + dt * k2 / 2 in
    let k4 := v + dt * k3 in
    y_old + dt * (k1 + 2 * k2 + 2 * k3 + k4) / 6 in
  (forall m0 y0_old y1_old,
      get_last_state_y m0 = Return (y0_old, y1_old) ->
      let f := - y0_old / (inductance m0 * capacitance m0) in
      runge_kutta_body self m0
      = (Return tt, add_new_state m0 (stage y0_old y1_old, stage y1_old f)))
  /\ exists m',
      SimpleRungeKutta_solve self t0 t1 m = (Return tt, m')
      /\ length (state m') = (length (state m) + length (time_steps self))%nat
      /\ forall k p,
          (k < length (time_steps self))%nat ->
          nth_error (state m') (length (state m) + k - 1) = Some p ->
          let y0_old := fst p in
          let y1_old := - snd p / L in
          let f := - y0_old / (L * C) in
          nth_error (state m') (length (state m) + k)
          = Some (stage y0_old y1_old, - L * stage y1_old f).
Proof.
  intros Hne dt L C stage. split.
  - intros m0 y0_old y1_old Hy f.
    apply (runge_kutta_body_step self m0 y0_old y1_old Hy).
  - destruct (last_row_nonempty _ Hne) as [p0 Hp0].
    eexists. split; [apply (runge_kutta_solve_run self t0 t1 m p0 Hp0)|].
    unfold after_run. simpl state. split.
    + rewrite length_app, trajectory_length. reflexivity.
    + intros k p Hk Hp.
      rewrite (trajectory_step _ _ _ _ Hp0 k p Hk Hp). reflexivity.
Qed.

Lemma runge_kutta_solve_stages_witness :
  state sample_model <> []
  /\ exists m',
      SimpleRungeKutta_solve (sample_solver SimpleRungeKutta) 10 11 sample_model
      = (Return tt, m')
      /\ state m' = [(0, 1); (-0.6484375, 1); (-1.296875, 0.57952880859375)].
Proof.
  split; [discriminate|].
  destruct (runge_kutta_solve_stages (sample_solver SimpleRungeKutta) 10 11 sample_model)
    as [_ [m' [Hrun _]]]; [discriminate|].
  exists m'. split; [exact Hrun|].
  vm_compute in Hrun. injection Hrun as <-. reflexivity.
Defined.

(** ** The state container *)

(** C5. [add_new_state] on a natural pair [(y0_new, y1_new)] stores exactly
    [(y0_new, -L*y1_new)] as the new last row: the history is the old one
    followed by that row, one longer, with every earlier row and the physical
    parameters as they were. *)
Theorem add_new_state_appends (m : LCOscillatorModel) (y0_new y1_new : float) :
  let m' := add_new_state m (y0_new, y1_new) in
  state m' = state m ++ [(y0_new, - inductance m * y1_new)]
  /\ get_last_state m' = Return (y0_new, - inductance m * y1_new)
  /\ length (state m') = S (length (state m))
  /\ (forall k, (k < length (state m))%nat ->
        nth_error (state m') k = nth_error (state m) k)
  /\ inductance m' = inductance m
  /\ capacitance m' = capacitance m
  /\ initial_current m' = initial_current m
  /\ initial_voltage m' = initial_voltage m.
Proof.
  cbv zeta. repeat split.
  - unfold get_last_state, add_new_state. simpl state. apply last_row_app.
  - unfold add_new_state. simpl state. rewrite length_app. simpl. lia.
  - intros k Hk. unfold add_new_state. simpl state.
    apply nth_error_app1. exact Hk.
Qed.

(** C6. After a run of any solver on a freshly constructed model, row 0 of the
    history is the raw pair [(initial_current, initial_voltage)], and every
    row at an index [k >= 1] is the stored form [(y0, -L*y1)] of the natural
    pair [(y0, y1)] that the solver's step computed from the natural view of
    row [k-1] (for the backward solver with the square [sq] that [dt ** 2]
    returned). *)
Theorem history_first_raw_rest_scaled
    (L C i0 v0 : float) (self : Solver) (t0 t1 : float) :
  exists m,
    LCOscillatorModel__init__ L C i0 v0 = Return m
    /\ let m' := snd (solve self t0 t1 m) in
       let dt := step_size self in
       nth_error (state m') 0 = Some (i0, v0)
       /\ forall k q,
           nth_error (state m') (S k) = Some q ->
           exists p y,
             nth_error (state m') k = Some p
             /\ match solver_class self with
                | SimpleEulerSolver =>
                    y = euler_step dt L C (fst p, - snd p / L)
                | BackwardEulerSolver =>
                    exists sq,
                      float_pow2 platform dt = Return sq
                      /\ y = backward_step sq dt L C (fst p, - snd p / L)
                | SimpleRungeKutta =>
                    y = runge_kutta_step dt L C (fst p, - snd p / L)
                end
             /\ q = (fst y, - L * snd y).
Proof.
  eexists. split; [reflexivity|]. cbv zeta.
  set (m := mkModel L C i0 v0 (i0, v0) [(i0, v0)] None).
  destruct (solve_state self t0 t1 m (i0, v0) eq_refl) as [j [Hj Hc]].
  rewrite Hj. split; [reflexivity|].
  intros k q Hq.
  destruct (trajectory_prev _ j (state m) (i0, v0) eq_refl k q Hq) as [p [Hp Hqp]].
  simpl in Hp. rewrite Nat.sub_0_r in Hp.
  exists p.
  exists (class_step (solver_class self) (step_size self) L C (fst p, - snd p / L)).
  split; [exact Hp|]. split; [|exact Hqp].
  destruct Hc as [Hj0|Hc].
  - subst j. simpl in Hq. destruct k; discriminate.
  - simpl in Hc. unfold coeffs_raise in Hc.
    destruct (solver_class self); simpl class_step; try reflexivity.
    apply negb_false_iff in Hc.
    destruct (backward_coeffs_ok_square _ _ _ Hc) as (sq & Hsq & Hsquare & _).
    exists sq. rewrite Hsquare. split; [exact Hsq|reflexivity].
Qed.

(** C10. On a freshly constructed model the natural view of the latest state
    is [(i0, -v0/L)] and the derivative term is [-i0/(L*C)]; the first step
    of each solver therefore works on the second component [-v0/L]: the
    explicit Euler and Runge-Kutta steps append their update of
    [(i0, -v0/L)], and the backward Euler step does so, with the square [sq]
    that [dt ** 2] returns, when its coefficients can be computed and raises
    otherwise. *)
Theorem fresh_model_natural_view (L C i0 v0 : float) (self : Solver) :
  exists m,
    LCOscillatorModel__init__ L C i0 v0 = Return m
    /\ get_last_state_y m = Return (i0, - v0 / L)
    /\ last_equation_y m = Return (- i0 / (L * C))
    /\ euler_body self m
       = (Return tt,
          add_new_state m (i0 + - v0 / L * step_size self,
                           - v0 / L + - i0 / (L * C) * step_size self))
    /\ runge_kutta_body self m
       = (Return tt,
          add_new_state m (runge_kutta_step (step_size self) L C (i0, - v0 / L)))
    /\ match float_pow2 platform (step_size self) with
       | Return sq =>
           if negb (L * C =? 0) && negb (1 + sq / (L * C) =? 0)
           then backward_body self m
                = (Return tt,
                   add_new_state m (backward_step sq (step_size self) L C
                                                  (i0, - v0 / L)))
           else backward_body self m = (Raise ZeroDivisionError, m)
       | Raise e => backward_body self m = (Raise e, m)
       end.
Proof.
  eexists. split; [reflexivity|].
  set (m := mkModel L C i0 v0 (i0, v0) [(i0, v0)] None).
  assert (Hy : get_last_state_y m = Return (i0, - v0 / L)) by reflexivity.
  assert (Hf : last_equation_y m = Return (- i0 / (L * C))) by reflexivity.
  split; [exact Hy|]. split; [exact Hf|].
  split; [apply (euler_body_step self m _ _ _ Hy Hf)|].
  split; [apply (runge_kutta_body_step self m _ _ Hy)|].
  pose proof (backward_body_step self m _ _ Hy) as Hstep.
  pose proof (y_2_new_func_exception self m i0 (- v0 / L)) as Hexn.
  unfold backward_coeffs_ok, backward_exception, step_square in Hstep, Hexn.
  simpl inductance in *. simpl capacitance in *.
  destruct (float_pow2 platform (step_size self)) as [sq|e].
  - destruct (negb (L * C =? 0) && negb (1 + sq / (L * C) =? 0)).
    + apply Hstep. reflexivity.
    + unfold backward_body, bind, call. rewrite Hy. simpl fst; simpl snd.
      rewrite Hexn; reflexivity.
  - unfold backward_body, bind, call. rewrite Hy. simpl fst; simpl snd.
    rewrite Hexn; reflexivity.
Qed.

(** ** Facts on binary64 arithmetic *)

Lemma Prim2SF_zero : Prim2SF 0 = S754_zero false.
Proof. reflexivity. Qed.

Lemma SFcompare_finite_refl (s : bool) (m : positive) (e : Z) :
  SFcompare (S754_finite s m e) (S754_finite s m e) = Some Eq.
Proof.
  simpl. rewrite Z.compare_refl.
  assert (H : Pos.compare_cont Eq m m = Eq) by apply Pos.compare_refl.
  rewrite H. destruct s; reflexivity.
Qed.

Lemma eqb_zero_spec (x : float) : (x =? 0) = SFis_zero (Prim2SF x).
Proof.
  rewrite FloatAxioms.eqb_spec, Prim2SF_zero.
  destruct (Prim2SF x) as [s|s| |s m e]; try reflexivity; destruct s; reflexivity.
Qed.

Lemma ltb_zero_spec (x : float) : (0 <? x) = SFis_pos (Prim2SF x).
Proof.
  rewrite FloatAxioms.ltb_spec, Prim2SF_zero.
  destruct (Prim2SF x) as [s|s| |s m e]; try reflexivity; destruct s; reflexivity.
Qed.

Lemma is_nan_spec (x : float) : is_nan x = SFis_nan (Prim2SF x).
Proof.
  unfold is_nan. rewrite FloatAxioms.eqb_spec.
  destruct (Prim2SF x) as [s|s| |s m e]; try reflexivity.
  - destruct s; reflexivity.
  - unfold SFeqb. rewrite SFcompare_finite_refl. reflexivity.
Qed.

Lemma is_finite_spec (x : float) : is_finite x = SFis_finite (Prim2SF x).
Proof.
  unfold is_finite, is_infinity. rewrite is_nan_spec, FloatAxioms.eqb_spec, FloatAxioms.abs_spec.
  change (Prim2SF infinity) with (S754_infinity false).
  destruct (Prim2SF x) as [s|s| |s m e]; reflexivity.
Qed.

Lemma sub_zero_r (x : float) : x - 0 = x.
Proof.
  apply Prim2SF_inj. rewrite FloatAxioms.sub_spec, Prim2SF_zero.
  destruct (Prim2SF x) as [s|s| |s m e]; try reflexivity; destruct s; reflexivity.
Qed.

(** Zero is absorbing or neutral wherever the other operand allows it. *)
Lemma opp_zero (x : float) : (x =? 0) = true -> (- x =? 0) = true.
Proof.
  rewrite !eqb_zero_spec, FloatAxioms.opp_spec.
  destruct (Prim2SF x); simpl; congruence.
Qed.

Lemma opp_finite (x : float) : is_finite x = true -> is_finite (- x) = true.
Proof.
  rewrite !is_finite_spec, FloatAxioms.opp_spec.
  destruct (Prim2SF x); simpl; congruence.
Qed.

Lemma mul_zero_l (x y : float) :
  (x =? 0) = true -> is_finite y = true -> (x * y =? 0) = true.
Proof.
  rewrite !eqb_zero_spec, is_finite_spec, FloatAxioms.mul_spec.
  destruct (Prim2SF x), (Prim2SF y); simpl; congruence.
Qed.

Lemma mul_zero_r (x y : float) :
  is_finite x = true -> (y =? 0) = true -> (x * y =? 0) = true.
Proof.
  rewrite !eqb_zero_spec, is_finite_spec, FloatAxioms.mul_spec.
  destruct (Prim2SF x), (Prim2SF y); simpl; congruence.
Qed.

Lemma add_zero (x y : float) :
  (x =? 0) = true -> (y =? 0) = true -> (x + y =? 0) = true.
Proof.
  rewrite !eqb_zero_spec, FloatAxioms.add_spec.
  destruct (Prim2SF x) as [[]|?| |? ? ?], (Prim2SF y) as [[]|?| |? ? ?];
    simpl; congruence.
Qed.

Lemma sub_zero (x y : float) :
  (x =? 0) = true -> (y =? 0) = true -> (x - y =? 0) = true.
Proof.
  rewrite !eqb_zero_spec, FloatAxioms.sub_spec.
  destruct (Prim2SF x) as [[]|?| |? ? ?], (Prim2SF y) as [[]|?| |? ? ?];
    simpl; congruence.
Qed.

Lemma div_zero_l (x y : float) :
  (x =? 0) = true -> is_nan y = false -> (y =? 0) = false -> (x / y =? 0) = true.
Proof.
  rewrite !eqb_zero_spec, is_nan_spec, FloatAxioms.div_spec.
  destruct (Prim2SF x), (Prim2SF y); simpl; congruence.
Qed.

(** Dividing by zero never gives a finite number. *)
Lemma div_by_zero_not_finite (x y : float) :
  (y =? 0) = true -> is_finite (x / y) = false.
Proof.
  rewrite eqb_zero_spec, is_finite_spec, FloatAxioms.div_spec.
  destruct (Prim2SF x), (Prim2SF y); simpl; congruence.
Qed.

Lemma finite_not_nan (x : float) : is_finite x = true -> is_nan x = false.
Proof.
  rewrite is_finite_spec, is_nan_spec. destruct (Prim2SF x); simpl; congruence.
Qed.

(** Rounding a non-negative mantissa gives a number of the requested sign,
    never a NaN. *)
Lemma iter_pos_preserves {A : Type} (f : A -> A) (P : A -> Prop) :
  (forall x, P x -> P (f x)) ->
  forall p x, P x -> P (iter_pos f p x).
Proof.
  intros Hf. induction p as [p IH|p IH|]; intros x Hx; simpl.
  - apply IH, IH, Hf, Hx.
  - apply IH, IH, Hx.
  - apply Hf, Hx.
Qed.

Lemma shr_1_nonneg (mrs : shr_record) :
  (0 <= shr_m mrs)%Z -> (0 <= shr_m (shr_1 mrs))%Z.
Proof.
  destruct mrs as [m r s]. simpl.
  destruct m as [|p|p]; [simpl; lia| |lia].
  destruct p; simpl; lia.
Qed.

Lemma shr_fexp_nonneg (m e : Z) (l : location) :
  (0 <= m)%Z -> (0 <= shr_m (fst (shr_fexp prec emax m e l)))%Z.
Proof.
  intros Hm. unfold shr_fexp, shr.
  assert (H0 : (0 <= shr_m (shr_record_of_loc m l))%Z).
  { destruct l as [|[]]; simpl; exact Hm. }
  destruct (fexp prec emax (Zdigits2 m + e) - e)%Z; simpl; try exact H0.
  apply (iter_pos_preserves shr_1 (fun r => (0 <= shr_m r)%Z) shr_1_nonneg), H0.
Qed.

Lemma round_nearest_even_nonneg (m : Z) (l : location) :
  (0 <= m)%Z -> (0 <= round_nearest_even m l)%Z.
Proof.
  intros Hm. unfold round_nearest_even.
  destruct l as [|[]]; try lia. destruct (Z.even m); lia.
Qed.

Lemma binary_round_aux_sign (sx : bool) (mx ex : Z) (lx : location) :
  (0 <= mx)%Z -> SFhas_sign sx (binary_round_aux prec emax sx mx ex lx) = true.
Proof.
  intros Hm. unfold binary_round_aux.
  pose proof (shr_fexp_nonneg mx ex lx Hm) as H1.
  destruct (shr_fexp prec emax mx ex lx) as [mrs' e']. simpl in H1.
  pose proof (shr_fexp_nonneg _ e' loc_Exact
                (round_nearest_even_nonneg _ (loc_of_shr_record mrs') H1)) as H2.
  destruct (shr_fexp prec emax
              (round_nearest_even (shr_m mrs') (loc_of_shr_record mrs')) e' loc_Exact)
    as [mrs'' e'']. simpl in H2.
  destruct (shr_m mrs'') as [|p|p]; [| |lia].
  - simpl. apply Bool.eqb_reflx.
  - destruct (e'' <=? emax - prec)%Z; simpl; apply Bool.eqb_reflx.
Qed.

Lemma SFhas_sign_not_nan (s : bool) (x : spec_float) :
  SFhas_sign s x = true -> SFis_nan x = false.
Proof. destruct x; simpl; congruence. Qed.

(** The product of two finite numbers is not a NaN. *)
Lemma mul_finite_not_nan (x y : float) :
  is_finite x = true -> is_finite y = true -> is_nan (x * y) = false.
Proof.
  rewrite !is_finite_spec, is_nan_spec, FloatAxioms.mul_spec.
  destruct (Prim2SF x) as [s|s| |s m e], (Prim2SF y) as [s'|s'| |s' m' e'];
    simpl; try congruence.
  intros _ _. apply (SFhas_sign_not_nan (xorb s s')).
  apply binary_round_aux_sign. lia.
Qed.

(** The quotient of two strictly positive numbers is a NaN ([inf/inf]) or
    has a clear sign bit. *)
Lemma div_pos_sign (x y : float) :
  (0 <? x) = true -> (0 <? y) = true ->
  SFsign_clear (Prim2SF (x / y)) = true.
Proof.
  rewrite !ltb_zero_spec, FloatAxioms.div_spec.
  destruct (Prim2SF x) as [s|s| |s m e], (Prim2SF y) as [s'|s'| |s' m' e'];
    simpl; try congruence; destruct s, s'; simpl; try congruence.
  intros _ _.
  destruct (SFdiv_core_binary prec emax (Z.pos m) e (Z.pos m') e')
    as [[mz ez] lz] eqn:E.
  assert (Hmz : (0 <= mz)%Z).
  { unfold SFdiv_core_binary in E.
    set (m1 := match (e - e' - Z.min (fexp prec emax
                        (Zdigits2 (Z.pos m) + e - (Zdigits2 (Z.pos m') + e')))
                        (e - e'))%Z with
               | Z0 => Z.pos m
               | Zpos _ => Z.shiftl (Z.pos m) _
               | Zneg _ => 0%Z
               end) in E.
    assert (H1 : (0 <= m1)%Z).
    { unfold m1. destruct (e - e' - _)%Z; try lia.
      apply Z.shiftl_nonneg. lia. }
    pose proof (Z_div_mod m1 (Z.pos m') ltac:(lia)) as Hdm.
    destruct (Z.div_eucl m1 (Z.pos m')) as [q r].
    injection E as <- _ _. destruct Hdm as [Hq Hr]. nia. }
  pose proof (binary_round_aux_sign false mz ez lz Hmz) as Hs.
  destruct (binary_round_aux prec emax false mz ez lz) as [[]|[]| |[] ? ?];
    simpl in *; congruence.
Qed.

(** ** Zero rows under the three rules *)

Create HintDb float_zero.

Lemma two_finite : is_finite 2 = true. Proof. reflexivity. Qed.
Lemma two_not_nan : is_nan 2 = false. Proof. reflexivity. Qed.
Lemma two_nonzero : (2 =? 0) = false. Proof. reflexivity. Qed.
Lemma six_not_nan : is_nan 6 = false. Proof. reflexivity. Qed.
Lemma six_nonzero : (6 =? 0) = false. Proof. reflexivity. Qed.

#[local] Hint Resolve opp_zero opp_finite mul_zero_l mul_zero_r add_zero sub_zero
  div_zero_l finite_not_nan two_finite two_not_nan two_nonzero six_not_nan
  six_nonzero : float_zero.

Lemma zero_row_split (p : row) :
  zero_row p = true <-> (fst p =? 0) = true /\ (snd p =? 0) = true.
Proof. unfold zero_row. apply andb_true_iff. Qed.

Section ZeroRows.
Variables dt L C : float.
Hypothesis dt_finite : is_finite dt = true.
Hypothesis L_finite : is_finite L = true.
Hypothesis C_finite : is_finite C = true.
Hypothesis LC_nonzero : (L * C =? 0) = false.

Lemma L_nonzero : (L =? 0) = false.
Proof.
  destruct (L =? 0) eqn:E; [|reflexivity].
  rewrite (mul_zero_l L C E C_finite) in LC_nonzero. discriminate.
Qed.

Lemma LC_not_nan : is_nan (L * C) = false.
Proof. apply mul_finite_not_nan; assumption. Qed.

Hint Resolve L_nonzero LC_not_nan : float_zero.

Lemma natural_of_zero (p : row) :
  zero_row p = true -> zero_row (natural_of L p) = true.
Proof.
  rewrite !zero_row_split. intros [H0 H1]. unfold natural_of. simpl.
  split; auto 10 with float_zero.
Qed.

Lemma stored_of_zero (y : row) :
  zero_row y = true -> zero_row (stored_of L y) = true.
Proof.
  rewrite !zero_row_split. intros [H0 H1]. unfold stored_of. simpl.
  split; auto 10 with float_zero.
Qed.

Lemma euler_step_zero (y : row) :
  zero_row y = true -> zero_row (euler_step dt L C y) = true.
Proof.
  rewrite !zero_row_split. intros [H0 H1]. unfold euler_step. simpl.
  split; auto 10 with float_zero.
Qed.

Lemma rk_stage_zero (y_old v : float) :
  (y_old =? 0) = true -> (v =? 0) = true -> (rk_stage dt y_old v =? 0) = true.
Proof.
  intros H0 H1. unfold rk_stage.
  assert (K2 : (v + dt * v / 2 =? 0) = true) by auto 10 with float_zero.
  assert (K3 : (v + dt * (v + dt * v / 2) / 2 =? 0) = true)
    by auto 10 with float_zero.
  assert (K4 : (v + dt * (v + dt * (v + dt * v / 2) / 2) =? 0) = true)
    by auto 10 with float_zero.
  auto 12 with float_zero.
Qed.

Lemma runge_kutta_step_zero (y : row) :
  zero_row y = true -> zero_row (runge_kutta_step dt L C y) = true.
Proof.
  rewrite !zero_row_split. intros [H0 H1]. unfold runge_kutta_step. simpl.
  split; apply rk_stage_zero; auto 10 with float_zero.
Qed.

Lemma backward_step_zero (sq : float) (y : row) :
  is_finite (1 / (1 + sq / (L * C))) = true ->
  is_finite (dt / (L * C)) = true ->
  zero_row y = true -> zero_row (backward_step sq dt L C y) = true.
Proof.
  intros Ha Hb.
  rewrite !zero_row_split. intros [H0 H1]. unfold backward_step. simpl.
  assert (H2 : (1 / (1 + sq / (L * C)) * snd y - dt / (L * C) * fst y =? 0)
               = true) by auto 10 with float_zero.
  split; auto 10 with float_zero.
Qed.

Lemma class_rule_zero (cls : SolverClass) (p : row) :
  coeffs_raise cls dt L C = false ->
  (cls = BackwardEulerSolver -> backward_coeffs_finite dt L C = true) ->
  zero_row p = true ->
  zero_row (stored_rule (class_step cls dt L C) L p) = true.
Proof.
  intros Hraise Hcls Hp. unfold stored_rule. apply stored_of_zero.
  apply natural_of_zero in Hp.
  destruct cls; simpl.
  - apply euler_step_zero, Hp.
  - simpl in Hraise. apply negb_false_iff in Hraise.
    destruct (backward_coeffs_ok_square _ _ _ Hraise) as (sq & Hsq & -> & _).
    specialize (Hcls eq_refl). unfold backward_coeffs_finite in Hcls.
    rewrite Hsq in Hcls. apply andb_prop in Hcls as [Ha Hb].
    apply backward_step_zero; assumption.
  - apply runge_kutta_step_zero, Hp.
Qed.
End ZeroRows.

Lemma trajectory_all (F : row -> row) (P : row -> Prop) :
  (forall p, P p -> P (F p)) ->
  forall n p q, P p -> In q (trajectory F n p) -> P q.
Proof.
  intros HF. induction n as [|n IH]; intros p q Hp Hq; simpl in Hq; [contradiction|].
  destruct Hq as [<-|Hq]; [apply HF, Hp|].
  apply (IH (F p)); [apply HF, Hp|exact Hq].
Qed.

(** ** Degenerate parameters *)

(** C8, as stated, fails: the constructor does not validate its parameters;
    with [inductance = 0] it returns a model holding that value. *)
Lemma init_accepts_zero_inductance :
  exists m,
    LCOscillatorModel__init__ 0 1 0 1 = Return m
    /\ inductance m = 0
    /\ state m = [(0, 1)].
Proof. eexists. split; [reflexivity|]. split; reflexivity. Qed.

(** C8, amended. Construction succeeds for all parameter values, zero
    included: the model holds the four parameters as given, a history of the
    single row [(initial_current, initial_voltage)] and no solving time. *)
Theorem init_always_succeeds (L C i0 v0 : float) :
  exists m,
    LCOscillatorModel__init__ L C i0 v0 = Return m
    /\ inductance m = L
    /\ capacitance m = C
    /\ initial_current m = i0
    /\ initial_voltage m = v0
    /\ state m = [(i0, v0)]
    /\ get_last_state m = Return (i0, v0)
    /\ solving_time m = None.
Proof.
  exists (mkModel L C i0 v0 (i0, v0) [(i0, v0)] None).
  split; [reflexivity|].
  repeat (split; [reflexivity|]). reflexivity.
Qed.

(** C7, as stated, fails: with [inductance = 0] both readers return a value,
    an infinity and a NaN; no exception is raised. *)
Lemma zero_inductance_readers_return :
  exists m,
    LCOscillatorModel__init__ 0 1 0 1 = Return m
    /\ (inductance m * capacitance m =? 0) = true
    /\ get_last_state_y m = Return (0, neg_infinity)
    /\ last_equation_y m = Return nan.
Proof.
  eexists. split; [reflexivity|]. split; [reflexivity|]. split; reflexivity.
Qed.

(** C7, amended. On a model whose product [inductance * capacitance] is zero
    both readers return normally: the derivative term is an infinity or a
    NaN, and with [inductance = 0] so is the second natural component. *)
Theorem zero_product_readers_not_finite (m : LCOscillatorModel) :
  state m <> [] ->
  (inductance m * capacitance m =? 0) = true ->
  exists ls f,
    get_last_state_y m = Return ls
    /\ last_equation_y m = Return f
    /\ is_finite f = false
    /\ ((inductance m =? 0) = true -> is_finite (snd ls) = false).
Proof.
  intros Hne Hz.
  destruct (last_row_nonempty _ Hne) as [p Hp].
  exists (natural_of (inductance m) p).
  exists (- fst p / (inductance m * capacitance m)).
  split; [apply get_last_state_y_last, Hp|].
  split; [apply last_equation_y_last, Hp|].
  split; [apply div_by_zero_not_finite, Hz|].
  intros HL. simpl. apply div_by_zero_not_finite, HL.
Qed.

Lemma zero_product_readers_not_finite_witness :
  state (mkModel 0 1 0 1 (0, 1) [(0, 1)] None) <> []
  /\ (0 * 1 =? 0) = true
  /\ exists ls f,
      get_last_state_y (mkModel 0 1 0 1 (0, 1) [(0, 1)] None) = Return ls
      /\ last_equation_y (mkModel 0 1 0 1 (0, 1) [(0, 1)] None) = Return f
      /\ is_finite f = false.
Proof.
  split; [discriminate|]. split; [reflexivity|].
  destruct (zero_product_readers_not_finite (mkModel 0 1 0 1 (0, 1) [(0, 1)] None))
    as [ls [f [H1 [H2 [H3 _]]]]]; [discriminate|reflexivity|].
  exists ls, f. split; [exact H1|]. split; [exact H2|exact H3].
Defined.

(** ** The zero state *)

(** C9, amended. For finite [L], [C] and step size whose float product
    [L * C] is nonzero (and, for the backward integrator, finite coefficients
    [a] and [b]), a model constructed with zero initial current and voltage
    keeps the zero state: however the run of [solve] ends, every row of the
    history is a pair of zeros (of either sign). *)
Theorem zero_state_fixed_point
    (L C : float) (self : Solver) (t0 t1 : float) :
  is_finite L = true ->
  is_finite C = true ->
  (L * C =? 0) = false ->
  is_finite (step_size self) = true ->
  (solver_class self = BackwardEulerSolver ->
   backward_coeffs_finite (step_size self) L C = true) ->
  exists m,
    LCOscillatorModel__init__ L C 0 0 = Return m
    /\ forall q, In q (state (snd (solve self t0 t1 m))) -> zero_row q = true.
Proof.
  intros HL HC HLC Hdt Hbw.
  eexists. split; [reflexivity|].
  set (m := mkModel L C 0 0 (0, 0) [(0, 0)] None).
  destruct (solve_state self t0 t1 m (0, 0) eq_refl) as [j [Hj Hc]].
  rewrite Hj. intros q Hq. apply in_app_or in Hq as [Hq|Hq].
  - destruct Hq as [<-|[]]. reflexivity.
  - destruct Hc as [->|Hc]; [destruct Hq|].
    revert Hq.
    apply (trajectory_all _ (fun r => zero_row r = true)); [|reflexivity].
    intros p Hp. simpl inductance. simpl capacitance.
    apply class_rule_zero; assumption.
Qed.

(** ** The time grid *)

(** [SFceil] is the ceiling: on a number [v * 2^(-p)] it gives the least
    integer not below it. *)
Lemma SFceil_least (s : bool) (m p : positive) (n : Z) :
  SFceil (S754_finite s m (Zneg p)) = Some n ->
  let v := cond_Zopp s (Zpos m) in
  ((n - 1) * Z.pow_pos 2 p < v <= n * Z.pow_pos 2 p)%Z.
Proof.
  unfold SFceil. intros [= <-]. cbv zeta.
  generalize (cond_Zopp s (Z.pos m)). intros v.
  assert (Hd : (0 < Z.pow_pos 2 p)%Z) by (rewrite Z.pow_pos_fold; lia).
  revert Hd. generalize (Z.pow_pos 2 p). intros d Hd.
  pose proof (Z.mul_div_le (- v) d Hd) as H1.
  pose proof (Z.mul_succ_div_gt (- v) d Hd) as H2.
  revert H1 H2. generalize ((- v) / d)%Z. intros q H1 H2. nia.
Qed.

Lemma SFceil_pos_ge_1 (m : positive) (e n : Z) :
  SFceil (S754_finite false m e) = Some n -> (1 <= n)%Z.
Proof.
  unfold SFceil, cond_Zopp. intros [= <-]. destruct e as [|p|p].
  - rewrite Z.pow_0_r. lia.
  - assert (H : (0 < 2 ^ Z.pos p)%Z) by (apply Z.pow_pos_nonneg; lia).
    revert H. generalize (2 ^ Z.pos p)%Z. intros d H.
    change (1 <= Z.pos m * d)%Z. nia.
  - assert (Hd : (0 < Z.pow_pos 2 p)%Z) by (rewrite Z.pow_pos_fold; lia).
    assert ((- Z.pos m) / Z.pow_pos 2 p < 0)%Z
      by (apply Z.div_lt_upper_bound; lia).
    lia.
Qed.

Lemma pos_nonzero (x : float) : (0 <? x) = true -> (x =? 0) = false.
Proof.
  rewrite ltb_zero_spec, eqb_zero_spec.
  destruct (Prim2SF x) as [s|s| |s m e]; simpl; congruence.
Qed.

(** For a positive span and a positive step whose quotient has a ceiling [n],
    with [max 1 n] elements within numpy's bound and the platform's memory,
    [arange] has [max 1 n] elements (a quotient that underflows to zero still
    gives one), the first of them [0]. *)
Lemma arange_positive (dt T : float) (n : Z) :
  (0 <? dt) = true ->
  (0 <? T) = true ->
  float_ceil (T / dt) = Some n ->
  (Z.max 1 n <= max_elements)%Z ->
  (Z.max 1 n <= array_capacity platform)%Z ->
  exists grid,
    arange 0 T dt = Return grid
    /\ length grid = Z.to_nat (Z.max 1 n)
    /\ nth_error grid 0 = Some 0.
Proof.
  intros Hdt HT Hceil Hmax Hcap.
  assert (Hlen : arange_length 0 T dt = Return (Z.max 1 n)).
  { unfold arange_length, py_truediv. rewrite sub_zero_r.
    rewrite (pos_nonzero dt Hdt), (pos_nonzero T HT). cbn [obind negb].
    pose proof (div_pos_sign T dt HT Hdt) as Hs.
    rewrite eqb_zero_spec. rewrite Hceil. unfold float_ceil in Hceil.
    destruct (Prim2SF (T / dt)) as [s|s| |s m e] eqn:E; try discriminate.
    - simpl in Hs. apply negb_true_iff in Hs. subst s.
      injection Hceil as <-. cbn [SFis_zero andb].
      assert (Hv : T / dt = 0)
        by (apply Prim2SF_inj; rewrite E, Prim2SF_zero; reflexivity).
      rewrite Hv. reflexivity.
    - simpl in Hs. apply negb_true_iff in Hs. subst s.
      pose proof (SFceil_pos_ge_1 m e n Hceil) as Hn.
      cbn [SFis_zero andb].
      rewrite Z.max_r in * by lia.
      unfold max_elements in Hmax. unfold min_intp, max_intp.
      replace ((- 2 ^ 63 <=? n)%Z && (n <=? 2 ^ 63 - 1 + 1)%Z) with true
        by (symmetry; apply andb_true_iff; split; apply Z.leb_le; lia).
      replace (n =? 2 ^ 63 - 1 + 1)%Z with false
        by (symmetry; apply Z.eqb_neq; lia).
      reflexivity. }
  unfold arange. rewrite Hlen. cbn [obind].
  replace (Z.max 1 n <=? 0)%Z with false by (symmetry; apply Z.leb_gt; lia).
  replace (max_elements <? Z.max 1 n)%Z with false
    by (symmetry; apply Z.ltb_ge; lia).
  replace (array_capacity platform <? Z.max 1 n)%Z with false
    by (symmetry; apply Z.ltb_ge; lia).
  eexists. split; [reflexivity|]. split.
  - rewrite length_map, length_seq. reflexivity.
  - destruct (Z.to_nat (Z.max 1 n)) as [|k] eqn:Ek; [lia|]. reflexivity.
Qed.

(** The length of the history after [solve]: one row per grid point, or none
    when the backward integrator cannot compute its coefficients. *)
Lemma solve_length (self : Solver) (t0 t1 : float) (m : LCOscillatorModel) :
  state m <> [] ->
  time_steps self <> [] ->
  if coeffs_raise (solver_class self) (step_size self) (inductance m) (capacitance m)
  then (exists e, fst (solve self t0 t1 m) = Raise e)
       /\ snd (solve self t0 t1 m) = m
  else fst (solve self t0 t1 m) = Return tt
       /\ length (state (snd (solve self t0 t1 m)))
          = (length (state m) + length (time_steps self))%nat.
Proof.
  intros Hne Hgrid.
  destruct (last_row_nonempty _ Hne) as [p Hp].
  unfold solve, coeffs_raise. destruct (solver_class self).
  - rewrite (euler_solve_run self t0 t1 m p Hp). unfold after_run. simpl.
    rewrite length_app, trajectory_length. split; reflexivity.
  - destruct (backward_coeffs_ok (step_size self) (inductance m) (capacitance m))
      eqn:Hok; simpl negb; cbv iota.
    + rewrite (backward_solve_run self t0 t1 m p Hok Hp). unfold after_run. simpl.
      rewrite length_app, trajectory_length. split; reflexivity.
    + destruct (backward_solve_raises self t0 t1 m Hne Hgrid Hok) as [e He].
      rewrite He. split; [exists e|]; reflexivity.
  - rewrite (runge_kutta_solve_run self t0 t1 m p Hp). unfold after_run. simpl.
    rewrite length_app, trajectory_length. split; reflexivity.
Qed.

(** C1, amended. For [step_size = dt > 0] and [simulation_time = T > 0] whose
    float quotient [T/dt] has a ceiling [n], with [max 1 n] doubles within
    numpy's bound on an array and the memory of the platform, every solver
    class is constructed with a grid of exactly [max 1 n] points (the
    ceiling, not the floor, of [T/dt]; a quotient that underflows to zero
    still gives one point), the first of them [0]. One call of [solve] on a
    freshly constructed model returns with a history of [max 1 n + 1] rows,
    for the explicit Euler and Runge-Kutta solvers always and for the
    backward Euler solver whenever its coefficients can be computed;
    otherwise that solver raises and the history keeps its single row. *)
Theorem grid_length_is_ceiling (dt T : float) (n : Z) (cls : SolverClass) :
  (0 <? dt) = true ->
  (0 <? T) = true ->
  float_ceil (T / dt) = Some n ->
  (Z.max 1 n <= max_elements)%Z ->
  (Z.max 1 n <= array_capacity platform)%Z ->
  exists self,
    SolverInterface__init__ cls dt T = Return self
    /\ length (time_steps self) = Z.to_nat (Z.max 1 n)
    /\ nth_error (time_steps self) 0 = Some 0
    /\ forall L C i0 v0 t0 t1,
        exists m,
          LCOscillatorModel__init__ L C i0 v0 = Return m
          /\ let r := fst (solve self t0 t1 m) in
             let m' := snd (solve self t0 t1 m) in
             if coeffs_raise cls dt L C
             then (exists e, r = Raise e) /\ length (state m') = 1%nat
             else r = Return tt
                  /\ length (state m') = (Z.to_nat (Z.max 1 n) + 1)%nat.
Proof.
  intros Hdt HT Hceil Hmax Hcap.
  destruct (arange_positive dt T n Hdt HT Hceil Hmax Hcap) as [grid [Hg [Hlen H0]]].
  exists (mkSolver cls dt T grid).
  split; [unfold SolverInterface__init__; rewrite Hg; reflexivity|].
  split; [exact Hlen|]. split; [exact H0|].
  intros L C i0 v0 t0 t1. eexists. split; [reflexivity|].
  set (m := mkModel L C i0 v0 (i0, v0) [(i0, v0)] None).
  pose proof (solve_length (mkSolver cls dt T grid) t0 t1 m) as Hs.
  simpl in Hs. cbv zeta.
  destruct (coeffs_raise cls dt L C).
  - destruct Hs as [He Hm]; [discriminate|destruct grid; discriminate|].
    split; [exact He|]. rewrite Hm. reflexivity.
  - destruct Hs as [Hr Hl]; [discriminate|destruct grid; discriminate|].
    split; [exact Hr|]. rewrite Hl, Hlen. lia.
Qed.

(** * Further properties of the solvers *)

(** ** Each loop body appends one row or raises without a trace *)

Lemma euler_body_cases (self : Solver) (m : LCOscillatorModel) :
  (exists e, euler_body self m = (Raise e, m))
  \/ (exists y, euler_body self m = (Return tt, add_new_state m y)).
Proof.
  unfold euler_body, bind, call, update, last_equation_y, get_last_state_y.
  destruct (last_row (state m)) as [p|e]; simpl.
  - right. eexists. reflexivity.
  - left. exists e. reflexivity.
Qed.

Lemma runge_kutta_body_cases (self : Solver) (m : LCOscillatorModel) :
  (exists e, runge_kutta_body self m = (Raise e, m))
  \/ (exists y, runge_kutta_body self m = (Return tt, add_new_state m y)).
Proof.
  unfold runge_kutta_body, bind, call, update, get_last_state_y.
  destruct (last_row (state m)) as [p|e]; simpl.
  - right. eexists. reflexivity.
  - left. exists e. reflexivity.
Qed.

Lemma backward_body_cases (self : Solver) (m : LCOscillatorModel) :
  (exists e, backward_body self m = (Raise e, m))
  \/ (exists y, backward_body self m = (Return tt, add_new_state m y)).
Proof.
  unfold backward_body, bind, call, update, get_last_state_y.
  destruct (last_row (state m)) as [p|e]; simpl.
  - destruct (y_2_new_func self m (fst p) (- snd p / inductance m)) as [v|e].
    + right. eexists. reflexivity.
    + left. exists e. reflexivity.
  - left. exists e. reflexivity.
Qed.

Lemma extends_by_refl (n : nat) (m : LCOscillatorModel) : extends_by n m m.
Proof.
  unfold extends_by. repeat (split; [reflexivity|]).
  exists []. rewrite app_nil_r. split; [reflexivity|simpl; lia].
Qed.

Lemma extends_by_trans (n k : nat) (m1 m2 m3 : LCOscillatorModel) :
  extends_by n m1 m2 -> extends_by k m2 m3 -> extends_by (n + k) m1 m3.
Proof.
  intros (A1 & A2 & A3 & A4 & A5 & A6 & r1 & Hr1 & Hn)
         (B1 & B2 & B3 & B4 & B5 & B6 & r2 & Hr2 & Hk).
  unfold extends_by.
  repeat (split; [congruence|]).
  exists (r1 ++ r2). rewrite Hr2, Hr1, app_assoc, length_app.
  split; [reflexivity|lia].
Qed.

Lemma add_new_state_extends (m : LCOscillatorModel) (y : row) :
  extends_by 1 m (add_new_state m y).
Proof.
  unfold extends_by. repeat (split; [reflexivity|]).
  eexists. split; [reflexivity|simpl; lia].
Qed.

Section AppendingBody.
Variable body : M unit.

Hypothesis body_cases :
  forall m,
    (exists e, body m = (Raise e, m))
    \/ (exists y, body m = (Return tt, add_new_state m y)).

Lemma for_each_extends {A : Type} (xs : list A) :
  forall m, extends_by (length xs) m (snd (for_each xs (fun _ => body) m)).
Proof.
  induction xs as [|x xs IH]; intros m; simpl.
  - apply extends_by_refl.
  - unfold bind. destruct (body_cases m) as [[e He]|[y Hy]].
    + rewrite He. simpl. apply extends_by_refl.
    + rewrite Hy. apply (extends_by_trans 1 (length xs) m (add_new_state m y)).
      * apply add_new_state_extends.
      * apply IH.
Qed.

End AppendingBody.

Lemma for_each_ext_length {A B : Type} (b1 b2 : M unit) :
  (forall m, b1 m = b2 m) ->
  forall (xs : list A) (ys : list B),
    length xs = length ys ->
    forall m, for_each xs (fun _ => b1) m = for_each ys (fun _ => b2) m.
Proof.
  intros Hb. induction xs as [|x xs IH]; intros [|y ys] Hlen m;
    try discriminate; [reflexivity|].
  simpl. unfold bind. rewrite Hb.
  destruct (b2 m) as [[[]|e] m1]; [|reflexivity].
  apply IH. simpl in Hlen. lia.
Qed.

(** The loop body of a solver's class. *)
Lemma solve_unfold (self : Solver) (t0 t1 : float) (m : LCOscillatorModel) :
  exists body,
    (forall m0,
        (exists e, body m0 = (Raise e, m0))
        \/ (exists y, body m0 = (Return tt, add_new_state m0 y)))
    /\ solve self t0 t1 m
       = bind (for_each (time_steps self) (fun _ => body))
              (fun _ => update (fun m0 => set_solving_time m0 (t1 - t0))) m.
Proof.
  unfold solve. destruct (solver_class self).
  - exists (euler_body self). split; [apply euler_body_cases|]. reflexivity.
  - exists (backward_body self). split; [apply backward_body_cases|]. reflexivity.
  - exists (runge_kutta_body self). split; [apply runge_kutta_body_cases|].
    reflexivity.
Qed.

(** ** What a run of [solve] changes *)

(** X1. [solve] only appends: for every solver, model and outcome of the run,
    the physical parameters and initial values of the model are as before
    and the history is the old one followed by at most one new row per grid
    point; no row is removed or rewritten. *)
Theorem solve_append_only (self : Solver) (t0 t1 : float) (m : LCOscillatorModel) :
  let m' := snd (solve self t0 t1 m) in
  inductance m' = inductance m
  /\ capacitance m' = capacitance m
  /\ initial_current m' = initial_current m
  /\ initial_voltage m' = initial_voltage m
  /\ initial_state m' = initial_state m
  /\ exists rows,
      state m' = state m ++ rows
      /\ (length rows <= length (time_steps self))%nat.
Proof.
  cbv zeta.
  destruct (solve_unfold self t0 t1 m) as [body [Hcases ->]].
  pose proof (for_each_extends body Hcases (time_steps self) m) as Hext.
  unfold bind, update.
  destruct (for_each (time_steps self) (fun _ => body) m) as [[[]|e] m1];
    simpl in *;
    destruct Hext as (A1 & A2 & A3 & A4 & A5 & _ & rows & Hrows & Hlen);
    repeat (split; [assumption|]); exists rows; split; assumption.
Qed.

(** X2. [solve] stores the elapsed time only when it completes: after a run
    that returns, [solving_time] is the difference of the two clock readings;
    after a run that raises it is what it was before (initially unset). *)
Theorem solve_records_time (self : Solver) (t0 t1 : float) (m : LCOscillatorModel) :
  match fst (solve self t0 t1 m) with
  | Return _ => solving_time (snd (solve self t0 t1 m)) = Some (t1 - t0)
  | Raise _ => solving_time (snd (solve self t0 t1 m)) = solving_time m
  end.
Proof.
  destruct (solve_unfold self t0 t1 m) as [body [Hcases ->]].
  pose proof (for_each_extends body Hcases (time_steps self) m) as Hext.
  unfold bind, update.
  destruct (for_each (time_steps self) (fun _ => body) m) as [[[]|e] m1];
    simpl in *; [reflexivity|].
  destruct Hext as (_ & _ & _ & _ & _ & Ht & _). exact Ht.
Qed.

(** X3. The loops never look at the grid's values ([for _ in time_steps]):
    two solvers of the same class and step size whose grids have the same
    number of points do the same to every model, whatever the points and the
    simulation time are. *)
Theorem solve_ignores_grid_values
    (s1 s2 : Solver) (t0 t1 : float) (m : LCOscillatorModel) :
  solver_class s1 = solver_class s2 ->
  step_size s1 = step_size s2 ->
  length (time_steps s1) = length (time_steps s2) ->
  solve s1 t0 t1 m = solve s2 t0 t1 m.
Proof.
  intros Hc Hs Hl. unfold solve. rewrite Hc.
  destruct (solver_class s2).
  - unfold SimpleEulerSolver_solve, bind.
    rewrite (for_each_ext_length (euler_body s1) (euler_body s2)) with (ys := time_steps s2);
      [reflexivity| |exact Hl].
    intros m0. unfold euler_body. rewrite Hs. reflexivity.
  - unfold BackwardEulerSolver_solve, bind.
    rewrite (for_each_ext_length (backward_body s1) (backward_body s2))
      with (ys := time_steps s2); [reflexivity| |exact Hl].
    intros m0. unfold backward_body, y_2_new_func. rewrite Hs. reflexivity.
  - unfold SimpleRungeKutta_solve, bind.
    rewrite (for_each_ext_length (runge_kutta_body s1) (runge_kutta_body s2))
      with (ys := time_steps s2); [reflexivity| |exact Hl].
    intros m0. unfold runge_kutta_body, y_new. rewrite Hs. reflexivity.
Qed.

(** ** Runs one after the other *)

Lemma trajectory_app (F : row -> row) (n k : nat) :
  forall p,
    trajectory F (n + k) p
    = trajectory F n p ++ trajectory F k (Nat.iter n F p).
Proof.
  induction n as [|n IH]; intros p; [reflexivity|].
  rewrite Nat.iter_succ_r. cbn [Nat.add trajectory app]. rewrite IH. reflexivity.
Qed.

Lemma last_row_trajectory (F : row -> row) (n : nat) :
  forall h p,
    last_row h = Return p ->
    last_row (h ++ trajectory F n p) = Return (Nat.iter n F p).
Proof.
  induction n as [|n IH]; intros h p Hp.
  - simpl. rewrite app_nil_r. exact Hp.
  - simpl trajectory.
    replace (h ++ F p :: trajectory F n (F p))
      with ((h ++ [F p]) ++ trajectory F n (F p))
      by (rewrite <- app_assoc; reflexivity).
    rewrite (IH (h ++ [F p]) (F p) (last_row_app h (F p))).
    rewrite Nat.iter_succ_r. reflexivity.
Qed.

(** A run whose steps do not raise, for every class at once. *)
Lemma solve_run (self : Solver) (t0 t1 : float) (m : LCOscillatorModel) (p : row) :
  last_row (state m) = Return p ->
  coeffs_raise (solver_class self) (step_size self) (inductance m) (capacitance m)
  = false ->
  solve self t0 t1 m
  = (Return tt,
     after_run m (stored_rule (class_step (solver_class self) (step_size self)
                                          (inductance m) (capacitance m))
                              (inductance m))
               (length (time_steps self)) p (t1 - t0)).
Proof.
  intros Hp Hok. unfold solve, coeffs_raise in *.
  destruct (solver_class self); simpl class_step.
  - apply euler_solve_run, Hp.
  - apply backward_solve_run; [|exact Hp].
    apply negb_false_iff in Hok. exact Hok.
  - apply runge_kutta_solve_run, Hp.
Qed.

(** X4. Nothing guards [solve] against a second call: on a model with a
    non-empty history, calling [solve] again after a first run gives what a
    single run over the grid repeated twice gives, the same outcome and the
    same model; a second run appends a second full series of rows. *)
Theorem solve_twice
    (self : Solver) (t0 t1 t2 t3 : float) (m : LCOscillatorModel) :
  state m <> [] ->
  solve self t2 t3 (snd (solve self t0 t1 m))
  = solve (with_time_steps self (time_steps self ++ time_steps self)) t2 t3 m.
Proof.
  intros Hne. destruct (last_row_nonempty _ Hne) as [p Hp].
  destruct (coeffs_raise (solver_class self) (step_size self)
                         (inductance m) (capacitance m)) eqn:Hraise.
  - unfold coeffs_raise in Hraise. unfold solve, with_time_steps. simpl solver_class.
    destruct (solver_class self); try discriminate.
    apply negb_true_iff in Hraise.
    destruct (time_steps self) as [|t ts] eqn:Hg.
    + unfold BackwardEulerSolver_solve, bind, update. simpl time_steps.
      rewrite Hg. reflexivity.
    + destruct (backward_body_raises self m Hne Hraise) as [e He].
      assert (H1 : forall s ta tb,
                 step_size s = step_size self ->
                 (exists u us, time_steps s = u :: us) ->
                 BackwardEulerSolver_solve s ta tb m = (Raise e, m)).
      { intros s ta tb Hs (u & us & Hu).
        unfold BackwardEulerSolver_solve, bind. rewrite Hu.
        rewrite (for_each_raises (backward_body s) e u us m); [reflexivity|].
        rewrite <- He. unfold backward_body, y_2_new_func. rewrite Hs. reflexivity. }
      rewrite (H1 self t0 t1 eq_refl) by (exists t, ts; exact Hg).
      cbn [snd].
      rewrite (H1 self t2 t3 eq_refl) by (exists t, ts; exact Hg).
      cbn [solver_class].
      rewrite H1; [reflexivity|reflexivity|].
      exists t, (ts ++ t :: ts). reflexivity.
  - rewrite (solve_run self t0 t1 m p Hp Hraise). simpl snd.
    set (F := stored_rule (class_step (solver_class self) (step_size self)
                             (inductance m) (capacitance m)) (inductance m)).
    set (n := length (time_steps self)).
    rewrite (solve_run self t2 t3 (after_run m F n p (t1 - t0)) (Nat.iter n F p)).
    + rewrite (solve_run (with_time_steps self (time_steps self ++ time_steps self))
                 t2 t3 m p Hp Hraise).
      unfold with_time_steps. simpl. fold F. rewrite length_app. fold n.
      unfold after_run, set_solving_time, set_state. simpl.
      rewrite trajectory_app, app_assoc. reflexivity.
    + unfold after_run. simpl. apply last_row_trajectory, Hp.
    + exact Hraise.
Qed.

(** ** The exception of the backward integrator *)

(** X5. When the coefficients of the backward Euler solver cannot be
    computed ([dt ** 2] raises, [L*C == 0], or [1 + sq/(L*C) == 0] for the
    square [sq] it returns), [solve] on a model with a non-empty history and
    a non-empty grid raises in its first step and leaves the model exactly
    as it was, solving time included: with the exception of [dt ** 2] when
    that raises, with [ZeroDivisionError] otherwise. *)
Theorem backward_solve_exception
    (self : Solver) (t0 t1 : float) (m : LCOscillatorModel) :
  state m <> [] ->
  time_steps self <> [] ->
  match float_pow2 platform (step_size self) with
  | Return sq =>
      (inductance m * capacitance m =? 0)
      || (1 + sq / (inductance m * capacitance m) =? 0)
  | Raise _ => true
  end = true ->
  BackwardEulerSolver_solve self t0 t1 m
  = (Raise (match float_pow2 platform (step_size self) with
            | Raise e => e
            | Return _ => ZeroDivisionError
            end),
     m).
Proof.
  intros Hne Hgrid Hcond.
  assert (Hbad : backward_coeffs_ok (step_size self) (inductance m) (capacitance m)
                 = false).
  { unfold backward_coeffs_ok.
    destruct (float_pow2 platform (step_size self)) as [sq|e]; [|reflexivity].
    apply orb_true_iff in Hcond as [H|H]; rewrite H; [reflexivity|].
    apply andb_false_r. }
  destruct (last_row_nonempty _ Hne) as [p Hp].
  assert (Hbody : backward_body self m
                  = (Raise (backward_exception (step_size self)), m)).
  { unfold backward_body, bind, call.
    rewrite (get_last_state_y_last m p Hp).
    rewrite (y_2_new_func_exception self m _ _ Hbad). reflexivity. }
  unfold BackwardEulerSolver_solve, bind.
  destruct (time_steps self) as [|t ts]; [congruence|].
  rewrite (for_each_raises (backward_body self) _ t ts m Hbody). reflexivity.
Qed.

(** ** NaN in the history *)

Lemma Prim2SF_nan : Prim2SF nan = S754_nan.
Proof. reflexivity. Qed.

Lemma is_nan_eq (x : float) : is_nan x = true -> x = nan.
Proof.
  rewrite is_nan_spec. intros H. apply Prim2SF_inj. rewrite Prim2SF_nan.
  destruct (Prim2SF x); try discriminate. reflexivity.
Qed.

Lemma nan_opp : - nan = nan.
Proof. reflexivity. Qed.

Lemma nan_add_l (y : float) : nan + y = nan.
Proof.
  apply Prim2SF_inj. rewrite FloatAxioms.add_spec, Prim2SF_nan. reflexivity.
Qed.

Lemma nan_add_r (x : float) : x + nan = nan.
Proof.
  apply Prim2SF_inj. rewrite FloatAxioms.add_spec, Prim2SF_nan.
  destruct (Prim2SF x); reflexivity.
Qed.

Lemma nan_sub_r (x : float) : x - nan = nan.
Proof.
  apply Prim2SF_inj. rewrite FloatAxioms.sub_spec, Prim2SF_nan.
  destruct (Prim2SF x); reflexivity.
Qed.

Lemma nan_mul_l (y : float) : nan * y = nan.
Proof.
  apply Prim2SF_inj. rewrite FloatAxioms.mul_spec, Prim2SF_nan. reflexivity.
Qed.

Lemma nan_mul_r (x : float) : x * nan = nan.
Proof.
  apply Prim2SF_inj. rewrite FloatAxioms.mul_spec, Prim2SF_nan.
  destruct (Prim2SF x); reflexivity.
Qed.

Lemma nan_div_l (y : float) : nan / y = nan.
Proof.
  apply Prim2SF_inj. rewrite FloatAxioms.div_spec, Prim2SF_nan. reflexivity.
Qed.

Create Rewrite HintDb float_nan.

#[local] Hint Rewrite nan_opp nan_add_l nan_add_r nan_sub_r nan_mul_l nan_mul_r
  nan_div_l : float_nan.

(** Every rule sends a row whose first component is a NaN to the row of two
    NaNs. *)
Lemma class_rule_nan (cls : SolverClass) (dt L C s1 : float) :
  stored_rule (class_step cls dt L C) L (nan, s1) = (nan, nan).
Proof.
  unfold stored_rule, stored_of, natural_of.
  destruct cls; simpl;
    unfold euler_step, backward_step, runge_kutta_step, rk_stage; simpl;
    autorewrite with float_nan; reflexivity.
Qed.

Lemma trajectory_fixed (F : row -> row) (q : row) :
  F q = q -> forall n, trajectory F n q = repeat q n.
Proof.
  intros Hq. induction n as [|n IH]; [reflexivity|].
  simpl. rewrite Hq, IH. reflexivity.
Qed.

(** X6. A NaN is never caught and never leaves: on a model whose latest row
    has a NaN first component, a run whose coefficients can be computed
    returns normally and every row it appends is the pair of two NaNs, for
    each of the three classes. *)
Theorem nan_state_absorbing
    (self : Solver) (t0 t1 : float) (m : LCOscillatorModel) (p : row) :
  last_row (state m) = Return p ->
  is_nan (fst p) = true ->
  coeffs_raise (solver_class self) (step_size self) (inductance m) (capacitance m)
  = false ->
  exists m',
    solve self t0 t1 m = (Return tt, m')
    /\ state m' = state m ++ repeat (nan, nan) (length (time_steps self)).
Proof.
  intros Hp Hnan Hok.
  eexists. split; [apply (solve_run self t0 t1 m p Hp Hok)|].
  unfold after_run. simpl state. f_equal.
  destruct p as [s0 s1]. simpl in Hnan. apply is_nan_eq in Hnan. subst s0.
  destruct (length (time_steps self)) as [|n]; [reflexivity|].
  simpl. rewrite class_rule_nan. f_equal.
  apply trajectory_fixed. apply class_rule_nan.
Qed.

(** ** Storing and reading back *)

(** X7. With [inductance == 0] the two coordinate transforms do not undo each
    other: whatever natural pair [(y0, y1)] is appended, reading the latest
    state back in natural coordinates gives [y0] and a NaN; the second
    component is lost. *)
Theorem zero_inductance_read_back (m : LCOscillatorModel) (y0 y1 : float) :
  (inductance m =? 0) = true ->
  get_last_state_y (add_new_state m (y0, y1)) = Return (y0, nan).
Proof.
  intros HL. unfold get_last_state_y, add_new_state. simpl state. simpl inductance.
  rewrite last_row_app. simpl. f_equal. f_equal.
  apply Prim2SF_inj.
  rewrite FloatAxioms.div_spec, FloatAxioms.opp_spec, FloatAxioms.mul_spec,
    FloatAxioms.opp_spec, Prim2SF_nan.
  rewrite eqb_zero_spec in HL.
  destruct (Prim2SF (inductance m)) as [s|s| |s mm e]; try discriminate.
  destruct (Prim2SF y1) as [s'|s'| |s' m' e']; reflexivity.
Qed.

Lemma zero_inductance_read_back_witness :
  (0 =? 0) = true
  /\ get_last_state_y (add_new_state (mkModel 0 1 0 1 (0, 1) [(0, 1)] None) (3, 5))
     = Return (3, nan).
Proof.
  split; [reflexivity|].
  apply (zero_inductance_read_back (mkModel 0 1 0 1 (0, 1) [(0, 1)] None) 3 5).
  reflexivity.
Defined.

(** X8. The Runge-Kutta step inlines the derivative term that the explicit
    Euler step asks the model for: whenever the model's [last_equation_y]
    returns [f], the Runge-Kutta step appends [y_new(y0, y1)] and
    [y_new(y1, f)] for the latest natural state [(y0, y1)]. *)
Theorem runge_kutta_uses_model_derivative
    (self : Solver) (m : LCOscillatorModel) (y0 y1 f : float) :
  get_last_state_y m = Return (y0, y1) ->
  last_equation_y m = Return f ->
  runge_kutta_body self m
  = (Return tt, add_new_state m (y_new self y0 y1, y_new self y1 f)).
Proof.
  intros Hy Hf. unfold last_equation_y in Hf. rewrite Hy in Hf.
  simpl in Hf. injection Hf as <-.
  apply (runge_kutta_body_step self m y0 y1 Hy).
Qed.

Lemma runge_kutta_uses_model_derivative_witness :
  get_last_state_y sample_model = Return (0, -1)
  /\ last_equation_y sample_model = Return (-0)
  /\ runge_kutta_body (sample_solver SimpleRungeKutta) sample_model
     = (Return tt,
        add_new_state sample_model
          (y_new (sample_solver SimpleRungeKutta) 0 (-1),
           y_new (sample_solver SimpleRungeKutta) (-1) (-0))).
Proof.
  split; [reflexivity|]. split; [reflexivity|].
  apply (runge_kutta_uses_model_derivative (sample_solver SimpleRungeKutta)
           sample_model 0 (-1) (-0));
    reflexivity.
Defined.

(** ** A simulation from construction to the plotted series *)

(** X9. A simulation that could be constructed and is started once, with a
    solver whose coefficients can be computed, returns normally and leaves
    the two plotted series, [state[1:, 0]] and [state[1:, 1]], exactly as
    long as [time_steps], with the raw initial pair as row 0 and the elapsed
    time stored. *)
Theorem simulation_series_match
    (L C i0 v0 dt T : float) (cls : SolverClass)
    (sim : LCOscillatorModel * Solver) (t0 t1 : float) :
  Simulation__init__ L C i0 v0 dt T cls = Return sim ->
  coeffs_raise cls dt L C = false ->
  exists m',
    start_simulation sim t0 t1 = (Return tt, m')
    /\ length (current_series m') = length (time_steps (snd sim))
    /\ length (voltage_series m') = length (time_steps (snd sim))
    /\ nth_error (state m') 0 = Some (i0, v0)
    /\ solving_time m' = Some (t1 - t0).
Proof.
  intros Hsim Hok. unfold Simulation__init__, SolverInterface__init__ in Hsim.
  simpl in Hsim. destruct (arange 0 T dt) as [grid|e]; [|discriminate].
  simpl in Hsim. injection Hsim as <-.
  unfold start_simulation. cbn [fst snd].
  eexists. split.
  - apply (solve_run (mkSolver cls dt T grid) t0 t1
             (mkModel L C i0 v0 (i0, v0) [(i0, v0)] None) (i0, v0) eq_refl Hok).
  - unfold current_series, voltage_series, after_run. simpl.
    rewrite !length_map, trajectory_length. repeat split; reflexivity.
Qed.

(** ** No partial runs *)

(** X10. On a model with a non-empty history a run of [solve] is all or
    nothing, for each of the three classes: either it returns after
    appending exactly one row per grid point, or it raises with the model
    exactly as it was before the call. *)
Theorem solve_all_or_nothing (self : Solver) (t0 t1 : float) (m : LCOscillatorModel) :
  state m <> [] ->
  (fst (solve self t0 t1 m) = Return tt
   /\ length (state (snd (solve self t0 t1 m)))
      = (length (state m) + length (time_steps self))%nat)
  \/ (exists e, solve self t0 t1 m = (Raise e, m)).
Proof.
  intros Hne. destruct (last_row_nonempty _ Hne) as [p Hp].
  destruct (coeffs_raise (solver_class self) (step_size self)
                         (inductance m) (capacitance m)) eqn:Hraise.
  - destruct (time_steps self) as [|t ts] eqn:Hg.
    + left. unfold solve.
      destruct (solver_class self);
        unfold SimpleEulerSolver_solve, BackwardEulerSolver_solve,
          SimpleRungeKutta_solve, bind, update;
        rewrite Hg; simpl; (split; [reflexivity|lia]).
    + right. unfold coeffs_raise in Hraise. unfold solve.
      destruct (solver_class self); try discriminate.
      apply negb_true_iff in Hraise.
      apply (backward_solve_raises self t0 t1 m Hne); [|exact Hraise].
      rewrite Hg. discriminate.
  - left. rewrite (solve_run self t0 t1 m p Hp Hraise).
    unfold after_run. simpl. rewrite length_app, trajectory_length.
    split; reflexivity.
Qed.


End OnPlatform.

(** * Runs on the sample platform *)

(** ** Concrete runs *)

Example arange_quarters :
  arange sample_platform 0 1 0.25 = Return [0; 0.25; 0.5; 0.75].
Proof. vm_compute. reflexivity. Qed.

Example arange_zero_step : arange sample_platform 0 1 0 = Raise ZeroDivisionError.
Proof. reflexivity. Qed.

Example arange_infinite_quotient :
  arange sample_platform 0 0x1p1000 0x1p-1000 = Raise ValueError.
Proof. vm_compute. reflexivity. Qed.

Example arange_too_big : arange sample_platform 0 0x1p62 1 = Raise ValueError.
Proof. vm_compute. reflexivity. Qed.

Example arange_wrapped_length : arange sample_platform 0 0x1p63 1 = Return [].
Proof. vm_compute. reflexivity. Qed.

Example euler_two_steps :
  obind (Simulation__init__ sample_platform 1 1 0 1 0.5 1 SimpleEulerSolver)
        (fun sim => Return (state (snd (start_simulation sample_platform sim 10 11))))
  = Return [(0, 1); (-0.5, 1); (-1, 0.75)].
Proof. vm_compute. reflexivity. Qed.

Example backward_two_steps :
  obind (Simulation__init__ sample_platform 1 1 0 4 1 2 BackwardEulerSolver)
        (fun sim => Return (state (snd (start_simulation sample_platform sim 10 11))))
  = Return [(0, 4); (-2, 2); (-1, -1)].
Proof. vm_compute. reflexivity. Qed.

Example backward_zero_capacitance :
  obind (Simulation__init__ sample_platform 1 0 0 1 0.5 1 BackwardEulerSolver)
        (fun sim => Return (start_simulation sample_platform sim 10 11))
  = Return (Raise ZeroDivisionError, mkModel 1 0 0 1 (0, 1) [(0, 1)] None).
Proof. vm_compute. reflexivity. Qed.

(** ** The claims on sample inputs *)

(** C1, as stated, fails: for [step_size = 0.75] and [simulation_time = 1]
    [floor(T/dt)] is 1, and the grid has the two points [0] and [0.75] and
    the history three rows after [solve]. *)
Lemma grid_longer_than_floor :
  exists self m,
    SolverInterface__init__ sample_platform SimpleEulerSolver 0.75 1 = Return self
    /\ LCOscillatorModel__init__ 1 1 0 1 = Return m
    /\ float_floor (1 / 0.75) = Some 1%Z
    /\ time_steps self = [0; 0.75]
    /\ length (state (snd (solve sample_platform self 10 11 m))) = 3%nat.
Proof.
  eexists. eexists. split; [vm_compute; reflexivity|]. split; [reflexivity|].
  split; [reflexivity|]. split; reflexivity.
Qed.

Lemma grid_length_is_ceiling_witness :
  (0 <? 0.75) = true
  /\ (0 <? 1) = true
  /\ float_ceil (1 / 0.75) = Some 2%Z
  /\ (Z.max 1 2 <= max_elements)%Z
  /\ (Z.max 1 2 <= array_capacity sample_platform)%Z
  /\ exists self,
      SolverInterface__init__ sample_platform SimpleRungeKutta 0.75 1 = Return self
      /\ length (time_steps self) = 2%nat.
Proof.
  split; [reflexivity|]. split; [reflexivity|]. split; [reflexivity|].
  split; [vm_compute; discriminate|]. split; [vm_compute; discriminate|].
  destruct (grid_length_is_ceiling sample_platform 0.75 1 2 SimpleRungeKutta)
    as [self [Hs [Hl _]]]; try reflexivity; try (vm_compute; discriminate).
  exists self. split; [exact Hs|exact Hl].
Defined.

Lemma backward_solve_partially_implicit_witness :
  state sample_model <> []
  /\ float_pow2 sample_platform 0.5 = Return 0.25
  /\ (1 * 1 =? 0) = false
  /\ (1 + 0.25 / (1 * 1) =? 0) = false
  /\ exists m',
      BackwardEulerSolver_solve sample_platform (sample_solver BackwardEulerSolver)
                                10 11 sample_model
      = (Return tt, m')
      /\ length (state m') = 3%nat.
Proof.
  split; [discriminate|]. split; [reflexivity|]. split; [reflexivity|].
  split; [reflexivity|].
  destruct (backward_solve_partially_implicit sample_platform
              (sample_solver BackwardEulerSolver) 10 11 sample_model 0.25)
    as [_ [m' [Hrun [Hlen _]]]]; [discriminate|reflexivity|reflexivity|reflexivity|].
  exists m'. split; [exact Hrun|exact Hlen].
Defined.

(** C9, as stated, fails: [L = C = 2^-600] are nonzero, their float product
    underflows to zero, and the explicit Euler solver started from the zero
    state appends a row holding a NaN. *)
Lemma zero_state_lost_on_underflow :
  exists m self q,
    LCOscillatorModel__init__ 0x1p-600 0x1p-600 0 0 = Return m
    /\ SolverInterface__init__ sample_platform SimpleEulerSolver 0.5 1 = Return self
    /\ (0x1p-600 =? 0) = false
    /\ nth_error (state (snd (solve sample_platform self 10 11 m))) 1 = Some q
    /\ zero_row q = false.
Proof.
  eexists. eexists. eexists.
  split; [reflexivity|]. split; [vm_compute; reflexivity|].
  split; [reflexivity|]. split; [vm_compute; reflexivity|]. reflexivity.
Qed.

Lemma zero_state_fixed_point_witness :
  is_finite 2 = true
  /\ (2 * 1 =? 0) = false
  /\ exists m,
      LCOscillatorModel__init__ 2 1 0 0 = Return m
      /\ forall q,
          In q (state (snd (solve sample_platform (sample_solver BackwardEulerSolver)
                                  10 11 m))) ->
          zero_row q = true.
Proof.
  split; [reflexivity|]. split; [reflexivity|].
  apply (zero_state_fixed_point sample_platform 2 1
           (sample_solver BackwardEulerSolver) 10 11);
    try reflexivity.
Defined.

(** ** The further properties on sample inputs *)

Lemma solve_ignores_grid_values_witness :
  length (time_steps (sample_solver SimpleRungeKutta)) = length [3; 4]
  /\ solve sample_platform (sample_solver SimpleRungeKutta) 10 11 sample_model
     = solve sample_platform (mkSolver SimpleRungeKutta 0.5 7 [3; 4]) 10 11
             sample_model.
Proof.
  split; [reflexivity|].
  apply (solve_ignores_grid_values sample_platform (sample_solver SimpleRungeKutta)
           (mkSolver SimpleRungeKutta 0.5 7 [3; 4]) 10 11 sample_model);
    reflexivity.
Defined.

Lemma solve_twice_witness :
  state sample_model <> []
  /\ solve sample_platform (sample_solver SimpleEulerSolver) 12 13
           (snd (solve sample_platform (sample_solver SimpleEulerSolver) 10 11
                       sample_model))
     = solve sample_platform (mkSolver SimpleEulerSolver 0.5 1 [0; 0.5; 0; 0.5])
             12 13 sample_model.
Proof.
  split; [discriminate|].
  apply (solve_twice sample_platform (sample_solver SimpleEulerSolver)
           10 11 12 13 sample_model).
  discriminate.
Defined.

Lemma backward_solve_exception_witness :
  state (mkModel 1 0 0 1 (0, 1) [(0, 1)] None) <> []
  /\ time_steps (sample_solver BackwardEulerSolver) <> []
  /\ float_pow2 sample_platform 0.5 = Return 0.25
  /\ (1 * 0 =? 0) = true
  /\ BackwardEulerSolver_solve sample_platform (sample_solver BackwardEulerSolver)
       10 11 (mkModel 1 0 0 1 (0, 1) [(0, 1)] None)
     = (Raise ZeroDivisionError, mkModel 1 0 0 1 (0, 1) [(0, 1)] None).
Proof.
  split; [discriminate|]. split; [discriminate|]. split; [reflexivity|].
  split; [reflexivity|].
  apply (backward_solve_exception sample_platform
           (sample_solver BackwardEulerSolver) 10 11
           (mkModel 1 0 0 1 (0, 1) [(0, 1)] None));
    [discriminate|discriminate|reflexivity].
Defined.

Lemma nan_state_absorbing_witness :
  last_row [(0, 1); (nan, 2)] = Return (nan, 2)
  /\ coeffs_raise sample_platform BackwardEulerSolver 0.5 1 1 = false
  /\ exists m',
      solve sample_platform (sample_solver BackwardEulerSolver) 10 11
            (mkModel 1 1 0 1 (0, 1) [(0, 1); (nan, 2)] None)
      = (Return tt, m')
      /\ state m' = [(0, 1); (nan, 2); (nan, nan); (nan, nan)].
Proof.
  split; [reflexivity|]. split; [reflexivity|].
  apply (nan_state_absorbing sample_platform (sample_solver BackwardEulerSolver)
           10 11 (mkModel 1 1 0 1 (0, 1) [(0, 1); (nan, 2)] None) (nan, 2));
    reflexivity.
Defined.

Lemma simulation_series_match_witness :
  Simulation__init__ sample_platform 1 1 0 1 0.5 1 SimpleEulerSolver
  = Return (sample_model, sample_solver SimpleEulerSolver)
  /\ exists m',
      start_simulation sample_platform
        (sample_model, sample_solver SimpleEulerSolver) 10 11
      = (Return tt, m')
      /\ length (current_series m') = 2%nat.
Proof.
  split; [vm_compute; reflexivity|].
  destruct (simulation_series_match sample_platform 1 1 0 1 0.5 1 SimpleEulerSolver
              (sample_model, sample_solver SimpleEulerSolver) 10 11)
    as [m' [H1 [H2 _]]]; [vm_compute; reflexivity|reflexivity|].
  exists m'. split; [exact H1|exact H2].
Defined.

Lemma solve_all_or_nothing_witness :
  state sample_model <> []
  /\ ((fst (solve sample_platform (sample_solver SimpleRungeKutta) 10 11
                  sample_model) = Return tt
       /\ length (state (snd (solve sample_platform (sample_solver SimpleRungeKutta)
                                    10 11 sample_model)))
          = (length (state sample_model)
             + length (time_steps (sample_solver SimpleRungeKutta)))%nat)
      \/ exists e,
          solve sample_platform (sample_solver SimpleRungeKutta) 10 11 sample_model
          = (Raise e, sample_model)).
Proof.
  split; [discriminate|].
  apply (solve_all_or_nothing sample_platform (sample_solver SimpleRungeKutta)
           10 11 sample_model).
  discriminate.
Defined.
